(** * Enterprise-search Telegram bot: authorization gate, session store,
      backend request contract and message dispatch.

    A shallow embedding of [src/auth/__init__.py], [src/storage/__init__.py],
    [src/backend/__init__.py], [src/handlers/messages.py],
    [src/handlers/files.py] and [src/server.py], with the id lists of
    [src/config.py], [split_long_message] of [src/handlers/commands.py] and
    the dispatch of [src/handlers/callbacks.py].

    Python sets and dicts are stdpp [gset]/[gmap]; user ids are [Z];
    coroutines are functions in a state-and-exception monad over a [World]
    that holds the clock, the Redis server, the storage client's connection
    flag and the trace of observable effects. *)

From Stdlib Require Import ZArith Lia String Ascii List Bool.
From stdpp Require Import base gmap strings pretty list option.

Local Open Scope string_scope.
Local Open Scope Z_scope.

#[local] Set Warnings "-register-all".

(** ** Python values *)

(** Values that cross the JSON boundary (Redis payloads, backend bodies). *)
Inductive Json :=
| JNull
| JBool (b : bool)
| JNum (n : Z)
| JStr (s : string)
| JList (l : list Json)
| JObj (fields : list (string * Json)).

(** Python truthiness, as used by [if x:] and [x or y]. *)
Definition truthy (v : Json) : bool :=
  match v with
  | JNull => false
  | JBool b => b
  | JNum n => negb (n =? 0)%Z
  | JStr s => negb (String.eqb s "")
  | JList l => match l with [] => false | _ => true end
  | JObj f => match f with [] => false | _ => true end
  end.

Definition is_JStr (s : string) (v : Json) : bool :=
  match v with JStr s' => String.eqb s' s | _ => false end.

(** [str(n)] for an integer. *)
Definition py_str (n : Z) : string := pretty n.

(** A Python dict with string keys. *)
Abbreviation Dict := (gmap string Json).

(** [d.get(k)]: Python's [None] when the key is missing. *)
Definition dict_get (d : Dict) (k : string) : Json := default JNull (d !! k).

(** [d.get(k, dflt)] *)
Definition dict_get_default (d : Dict) (k : string) (dflt : Json) : Json :=
  default dflt (d !! k).

(** [d.update(u)]: keys of [u] win. *)
Definition dict_update (d u : Dict) : Dict := u ∪ d.

(** ** The authorization gate: [AuthManager] *)

Module Auth.

(** The parts of [settings] read by [AuthManager.__init__]. *)
Record Settings := {
  allowed_user_ids : list Z;    (* settings.get_allowed_user_ids() *)
  admin_user_ids : list Z;      (* settings.get_admin_user_ids() *)
  backend_jwt_secret : string;
}.

Record AuthManager := {
  jwt_secret : string;
  allowed_users : gset Z;
  admin_users : gset Z;
  allow_all_users : bool;
}.

(** [AuthManager.__init__] *)
Definition init (settings : Settings) : AuthManager :=
  let allowed := list_to_set (allowed_user_ids settings) : gset Z in
  {| jwt_secret := backend_jwt_secret settings;
     allowed_users := allowed;
     admin_users := list_to_set (admin_user_ids settings);
     (* len(self.allowed_users) == 0 *)
     allow_all_users := bool_decide (size allowed = 0%nat) |}.

(** [AuthManager.is_user_allowed] *)
Definition is_user_allowed (a : AuthManager) (user_id : Z) : bool :=
  if allow_all_users a then true
  else bool_decide (user_id ∈ allowed_users a).

(** [AuthManager.is_user_admin] *)
Definition is_user_admin (a : AuthManager) (user_id : Z) : bool :=
  bool_decide (user_id ∈ admin_users a).

Definition with_allowed (a : AuthManager) (s : gset Z) : AuthManager :=
  {| jwt_secret := jwt_secret a;
     allowed_users := s;
     admin_users := admin_users a;
     allow_all_users := allow_all_users a |}.

(** [AuthManager.add_user]: the returned flag and the manager afterwards. *)
Definition add_user (a : AuthManager) (user_id : Z) : bool * AuthManager :=
  if bool_decide (user_id ∉ allowed_users a)
  then (true, with_allowed a (allowed_users a ∪ {[user_id]}))
  else (false, a).

(** [AuthManager.remove_user] *)
Definition remove_user (a : AuthManager) (user_id : Z) : bool * AuthManager :=
  if bool_decide (user_id ∈ allowed_users a) && bool_decide (user_id ∉ admin_users a)
  then (true, with_allowed a (allowed_users a ∖ {[user_id]}))
  else (false, a).

(** The two mutators, as issued by the admin surface. *)
Inductive Op :=
| AddUser (user_id : Z)
| RemoveUser (user_id : Z).

Definition step (a : AuthManager) (o : Op) : AuthManager :=
  match o with
  | AddUser u => snd (add_user a u)
  | RemoveUser u => snd (remove_user a u)
  end.

Definition run (a : AuthManager) (ops : list Op) : AuthManager :=
  fold_left step ops a.

End Auth.

(** ** Effects: the world a coroutine runs in *)

(** Exceptions that the modelled code can meet. *)
Inductive Exn :=
| AttributeError (msg : string)
| ConnectionError (msg : string)
| ResponseError (msg : string)
| TimeoutException
| JSONDecodeError
| JWTError (msg : string)
| KeyError (key : string)
| OtherError (msg : string).

(** [str(e)] *)
Definition exn_str (e : Exn) : string :=
  match e with
  | AttributeError m | ConnectionError m | ResponseError m
  | JWTError m | KeyError m | OtherError m => m
  | TimeoutException => "timed out"
  | JSONDecodeError => "Expecting value"
  end.

Inductive Level := Info | Warning | Error.

(** The user-visible message templates of the handlers; the wording is
    in the source, the constructor carries the interpolated values. *)
Inductive Text :=
| MsgUnauthorized (user_id : Z)            (* auth: "Unauthorized access ..." *)
| MsgAdminRequired                         (* auth: "Admin privileges required ..." *)
| MsgWaitingForFile                        (* messages: "I'm waiting for a file upload ..." *)
| MsgQueryTooShort
| MsgHello
| MsgSearching (query : string)
| MsgSearchError (query : string) (error : Json)
| MsgSearchResults (result : Dict) (query : string)
| MsgWhatNext
| MsgSearchException
| MsgRefinedSearch (query : string)
| MsgRefinedResults (result : Dict) (query : string)
| MsgRefinedError (error : Json)
| MsgRefinedException
| MsgUseUploadFirst                        (* files: "To upload files, please use /upload first" *)
| MsgUnsupportedFileType
| MsgFileTooLarge (limit_mb size_bytes : Z)
| MsgUnsupportedExtension (filename : string)
| MsgUploadProgress (filename : string) (stage : string)
| MsgUploadSuccess (filename : string) (job_id document_id : Json)
| MsgQuickActions (job_id : Json)
| MsgUploadFailed (filename : string) (error : Json)
| MsgUploadError (filename : string)
| MsgUploadErrorPlain
| MsgJobCompleted (job_id : Json) (has_result : bool)   (* server: built, see process_job_callback *)
| MsgJobFailed (job_id error : Json)
| MsgJobStatus (job_id status : Json).

(** What the outside can observe of a run, in order. *)
Inductive Event :=
| ReplyText (chat_id : Z) (t : Text)          (* update.message.reply_text *)
| EditText (t : Text)                         (* msg.edit_text *)
| SendMessage (chat_id : Z) (t : Text)        (* context.bot.send_message *)
| SendChatAction (chat_id : Z)
| DeleteMessage (chat_id : Z)
| BackendRequest (method endpoint : string) (user_id : Z) (data : Dict)
| Log (lvl : Level) (event : string) (fields : list (string * Json)).

(** What the backend does with a request, as [httpx] reports it. *)
Inductive HttpResult :=
| Response (status_code : Z) (text : string) (json : option Dict)
    (* [json = None]: the body is not JSON and [response.json()] raises *)
| HttpTimeout                                  (* httpx.TimeoutException *)
| HttpException (e : Exn).                     (* any other exception *)

(** The settings read by the modelled code. *)
Record Config := {
  session_timeout_minutes : Z;
  max_file_size_mb : Z;
  search_results_limit : Z;
}.

Record World := {
  settings : Config;
  now : Z;                                      (* the clock, in seconds *)
  redis_up : bool;                              (* is the Redis server reachable *)
  redis_data : gmap string (Dict * option Z);   (* value and expiry instant *)
  connected : bool;                             (* RedisStateStorage._connected *)
  backend : string -> string -> Z -> HttpResult;
  trace : list Event;
}.

Definition set_redis_data (d : gmap string (Dict * option Z)) (w : World) : World :=
  {| settings := settings w; now := now w; redis_up := redis_up w;
     redis_data := d; connected := connected w; backend := backend w;
     trace := trace w |}.

Definition set_connected (b : bool) (w : World) : World :=
  {| settings := settings w; now := now w; redis_up := redis_up w;
     redis_data := redis_data w; connected := b; backend := backend w;
     trace := trace w |}.

Definition set_trace (t : list Event) (w : World) : World :=
  {| settings := settings w; now := now w; redis_up := redis_up w;
     redis_data := redis_data w; connected := connected w; backend := backend w;
     trace := t |}.

(** The clock moves on by [d] seconds; nothing else happens. *)
Definition advance (d : Z) (w : World) : World :=
  {| settings := settings w; now := now w + d; redis_up := redis_up w;
     redis_data := redis_data w; connected := connected w; backend := backend w;
     trace := trace w |}.

(** The Redis server becomes reachable or unreachable. *)
Definition set_redis_up (b : bool) (w : World) : World :=
  {| settings := settings w; now := now w; redis_up := b;
     redis_data := redis_data w; connected := connected w; backend := backend w;
     trace := trace w |}.

Inductive Res (A : Type) :=
| Ret (a : A)
| Raise (e : Exn).
Arguments Ret {A} a.
Arguments Raise {A} e.

(** A coroutine: it runs from a world to a result or an exception and the
    world it leaves behind. *)
Definition M (A : Type) : Type := World -> Res A * World.

Definition ret {A} (a : A) : M A := fun w => (Ret a, w).
Definition raise {A} (e : Exn) : M A := fun w => (Raise e, w).
Definition bind {A B} (m : M A) (k : A -> M B) : M B :=
  fun w => match m w with
           | (Ret a, w') => k a w'
           | (Raise e, w') => (Raise e, w')
           end.

(** [try: m / except Exception as e: h e] *)
Definition try_except {A} (m : M A) (h : Exn -> M A) : M A :=
  fun w => match m w with
           | (Ret a, w') => (Ret a, w')
           | (Raise e, w') => h e w'
           end.

(** [try: m / finally: f] *)
Definition try_finally {A} (m : M A) (f : M unit) : M A :=
  fun w => match m w with
           | (r, w') => match f w' with
                        | (Ret _, w'') => (r, w'')
                        | (Raise e, w'') => (Raise e, w'')
                        end
           end.

Declare Scope py_scope.
Delimit Scope py_scope with py.
Notation "x <- m ;; k" := (bind m (fun x => k))
  (at level 100, m at next level, right associativity) : py_scope.
Notation "m ;; k" := (bind m (fun _ => k))
  (at level 100, right associativity) : py_scope.
Local Open Scope py_scope.

Definition emit (e : Event) : M unit :=
  fun w => (Ret tt, set_trace (trace w ++ [e]) w).

Definition log (lvl : Level) (event : string) (fields : list (string * Json)) : M unit :=
  emit (Log lvl event fields).

Definition get_world : M World := fun w => (Ret w, w).

(** ** The session store: [RedisStateStorage] over a Redis server *)

Module Redis.

(** The server's commands, as the [redis.asyncio] client exposes them.
    Every command raises when the server cannot be reached; a key whose
    expiry instant has been reached is absent. *)

Definition live (now : Z) (entry : Dict * option Z) : bool :=
  match snd entry with
  | None => true
  | Some e => now <? e
  end.

Definition command {A} (body : M A) : M A :=
  fun w => if redis_up w then body w
           else (Raise (ConnectionError "Error connecting to Redis"), w).

Definition ping : M unit := command (ret tt).

Definition get (key : string) : M (option Dict) :=
  command (fun w =>
    match redis_data w !! key with
    | Some entry => if live (now w) entry then (Ret (Some (fst entry)), w)
                    else (Ret None, w)
    | None => (Ret None, w)
    end).

Definition set (key : string) (data : Dict) : M unit :=
  command (fun w => (Ret tt, set_redis_data (<[key := (data, None)]> (redis_data w)) w)).

(** [SETEX] refuses a time-to-live that is not positive. *)
Definition setex (key : string) (ttl : Z) (data : Dict) : M unit :=
  command (fun w =>
    if ttl <=? 0 then (Raise (ResponseError "invalid expire time in setex"), w)
    else (Ret tt, set_redis_data (<[key := (data, Some (now w + ttl))]> (redis_data w)) w)).

Definition delete (key : string) : M unit :=
  command (fun w => (Ret tt, set_redis_data (base.delete key (redis_data w)) w)).

End Redis.

Module Storage.

(** [RedisStateStorage.connect] *)
Definition connect : M unit :=
  w <- get_world ;;
  if connected w then ret tt
  else
    Redis.ping ;;
    (fun w => (Ret tt, set_connected true w)) ;;
    log Info "Redis connection established" [].

(** [RedisStateStorage.get].  The payload is JSON text on the wire; the
    model keeps the document itself, so [json.loads] of what [json.dumps]
    wrote is the identity, and the text of a document is never empty. *)
Definition get (key : string) : M (option Dict) :=
  connect ;;
  try_except
    (data <- Redis.get key ;;
     match data with
     | Some d => ret (Some d)
     | None => ret None
     end)
    (fun e =>
       log Error "Redis get error" [("key", JStr key); ("error", JStr (exn_str e))] ;;
       ret None).

(** [RedisStateStorage.set] *)
Definition set (key : string) (value : Dict) (ttl : option Z) : M unit :=
  connect ;;
  try_except
    (match ttl with
     | Some t => if negb (t =? 0)%Z then Redis.setex key t value
                 else Redis.set key value
     | None => Redis.set key value
     end)
    (fun e =>
       log Error "Redis set error" [("key", JStr key); ("error", JStr (exn_str e))]).

(** [RedisStateStorage.delete] *)
Definition delete (key : string) : M unit :=
  connect ;;
  try_except
    (Redis.delete key)
    (fun e =>
       log Error "Redis delete error" [("key", JStr key); ("error", JStr (exn_str e))]).

End Storage.

(** ** Timestamps *)

(** Zero-padded decimal rendering, [f"{n:0{width}d}"] for [0 <= n]. *)
Fixpoint zeros (k : nat) : string :=
  match k with
  | O => ""
  | S k' => "0" ++ zeros k'
  end.

Definition pad (width : nat) (n : Z) : string :=
  let digits := py_str n in
  zeros (width - String.length digits) ++ digits.

(** The proleptic Gregorian date of a day number counted from 1970-01-01. *)
Definition civil_from_days (z : Z) : Z * Z * Z :=
  let z := z + 719468 in
  let era := z / 146097 in
  let doe := z - era * 146097 in
  let yoe := (doe - doe / 1460 + doe / 36524 - doe / 146096) / 365 in
  let doy := doe - (365 * yoe + yoe / 4 - yoe / 100) in
  let mp := (5 * doy + 2) / 153 in
  let d := doy - (153 * mp + 2) / 5 + 1 in
  let m := if mp <? 10 then mp + 3 else mp - 9 in
  let y := yoe + era * 400 in
  (if m <=? 2 then y + 1 else y, m, d).

(** [datetime.utcfromtimestamp(t).isoformat()] for a clock in whole seconds. *)
Definition isoformat (t : Z) : string :=
  let '(y, m, d) := civil_from_days (t / 86400) in
  let s := t mod 86400 in
  pad 4 y ++ "-" ++ pad 2 m ++ "-" ++ pad 2 d ++ "T" ++
  pad 2 (s / 3600) ++ ":" ++ pad 2 (s mod 3600 / 60) ++ ":" ++ pad 2 (s mod 60).

(** ** The conversation state manager: [ConversationState] *)

Module ConversationState.

(** [self.default_ttl = settings.session_timeout_minutes * 60] *)
Definition default_ttl (c : Config) : Z := session_timeout_minutes c * 60.

(** [_get_key], with [conversation_type] at its default ["main"]. *)
Definition _get_key (user_id : Z) : string :=
  "conversation:" ++ py_str user_id ++ ":main".

(** [get_state]: [state or {}]. *)
Definition get_state (user_id : Z) : M Dict :=
  let key := _get_key user_id in
  state <- Storage.get key ;;
  ret (match state with
       | Some d => d          (* an empty dict is falsy and [{}] replaces it *)
       | None => ∅
       end).

(** [set_state] *)
Definition set_state (user_id : Z) (state : Dict) : M unit :=
  let key := _get_key user_id in
  w <- get_world ;;
  let state := <["updated_at" := JStr (isoformat (now w))]> state in
  Storage.set key state (Some (default_ttl (settings w))).

(** [update_state] *)
Definition update_state (user_id : Z) (updates : Dict) : M unit :=
  current_state <- get_state user_id ;;
  set_state user_id (dict_update current_state updates).

(** [clear_state] *)
Definition clear_state (user_id : Z) : M unit :=
  Storage.delete (_get_key user_id).

(** [set_flow] *)
Definition set_flow (user_id : Z) (flow : string)
    (data : option (list (string * Json))) : M unit :=
  let updates : Dict := {["current_flow" := JStr flow]} in
  let updates :=
    match data with
    | Some d => if truthy (JObj d) then <["flow_data" := JObj d]> updates else updates
    | None => updates
    end in
  update_state user_id updates.

(** [get_flow]: Python's [None] is [JNull]. *)
Definition get_flow (user_id : Z) : M Json :=
  state <- get_state user_id ;;
  ret (dict_get state "current_flow").

(** [get_flow_data] *)
Definition get_flow_data (user_id : Z) : M Json :=
  state <- get_state user_id ;;
  ret (dict_get_default state "flow_data" (JObj [])).

End ConversationState.

(** ** Backend tokens *)

Section Jwt.

(** A compact JWS in its three parts. *)
Record Token := {
  tok_header : Dict;
  tok_claims : Dict;
  tok_signature : string;
}.

(** The HMAC-SHA256 tag of a signing input (header and claims) under a
    key, as [python-jose] computes it; the development holds for every
    such function. *)
Variable hs256 : string -> Dict -> Dict -> string.

Definition hs256_header : Dict := {["alg" := JStr "HS256"; "typ" := JStr "JWT"]}.

(** [jwt.encode(payload, secret, algorithm="HS256")] *)
Definition jwt_encode (payload : Dict) (secret : string) : Token :=
  {| tok_header := hs256_header;
     tok_claims := payload;
     tok_signature := hs256 secret hs256_header payload |}.

(** [jwt.decode(token, secret, algorithms=["HS256"])] at clock reading
    [now]: the algorithm must be the permitted one, the tag must be the
    tag of the signing input, and an [exp] claim must be an integer that
    is not in the past. *)
Definition jwt_decode (now : Z) (token : Token) (secret : string) : Res Dict :=
  if negb (is_JStr "HS256" (dict_get (tok_header token) "alg"))
  then Raise (JWTError "The specified alg value is not allowed")
  else if negb (String.eqb (hs256 secret (tok_header token) (tok_claims token))
                           (tok_signature token))
  then Raise (JWTError "Signature verification failed.")
  else match tok_claims token !! "exp" with
       | None => Ret (tok_claims token)
       | Some (JNum exp) =>
           if exp <? now then Raise (JWTError "Signature has expired.")
           else Ret (tok_claims token)
       | Some _ => Raise (JWTError "Expiration Time claim (exp) must be an integer.")
       end.

(** [AuthManager.create_backend_token] *)
Definition create_backend_token (a : Auth.AuthManager) (user_id : Z)
    (expires_minutes : Z) : M Token :=
  w <- get_world ;;
  let expire := now w + expires_minutes * 60 in
  let payload : Dict :=
    {["sub" := JStr (py_str user_id);
      "exp" := JNum expire;
      "iat" := JNum (now w);
      "type" := JStr "bot_user"]} in
  ret (jwt_encode payload (Auth.jwt_secret a)).

(** [AuthManager.verify_backend_token] *)
Definition verify_backend_token (a : Auth.AuthManager) (token : Token)
    : M (option Dict) :=
  w <- get_world ;;
  match jwt_decode (now w) token (Auth.jwt_secret a) with
  | Ret payload => ret (Some payload)
  | Raise (JWTError m) =>
      log Warning "Token verification failed" [("error", JStr m)] ;;
      ret None
  | Raise e => raise e
  end.

End Jwt.

(** ** The chat transport, as far as the guards and handlers read it *)

Inductive FileKind := Document | Photo | Voice | Audio.

Record FileObj := {
  file_kind : FileKind;
  file_name : option string;
  file_size : option Z;
  file_id : string;
}.

Record Message := {
  text : string;
  attachment : option FileObj;
  caption : option string;
}.

Record CallbackQuery := {
  data : string;
}.

(** An incoming update: a message, or a button press, which carries a
    [callback_query] and no [message]. *)
Record Update := {
  effective_user_id : Z;
  effective_chat_id : Z;
  message : option Message;
  callback_query : option CallbackQuery;
}.

Record Context := {
  auth_manager : option Auth.AuthManager;     (* context.bot_data.get('auth_manager') *)
  args : list string;
}.

Definition Handler : Type := Update -> Context -> M unit.

(** [update.message.reply_text(...)]: attribute access on [None] raises.
    A call to the Bot API is recorded in the trace when it is made and is
    taken to go through: what the handlers do when Telegram refuses a
    message is not covered. *)
Definition reply_text (update : Update) (t : Text) : M unit :=
  match message update with
  | Some _ => emit (ReplyText (effective_chat_id update) t)
  | None => raise (AttributeError "'NoneType' object has no attribute 'reply_text'")
  end.

(** [require_auth] *)
Definition require_auth (func : Handler) : Handler :=
  fun update context =>
    let user_id := effective_user_id update in
    if match auth_manager context with
       | None => true
       | Some am => negb (Auth.is_user_allowed am user_id)
       end
    then
      reply_text update (MsgUnauthorized user_id) ;;
      log Warning "Unauthorized access attempt" [("user_id", JNum user_id)] ;;
      ret tt
    else func update context.

(** [require_admin] *)
Definition require_admin (func : Handler) : Handler :=
  fun update context =>
    let user_id := effective_user_id update in
    if match auth_manager context with
       | None => true
       | Some am => negb (Auth.is_user_admin am user_id)
       end
    then
      reply_text update MsgAdminRequired ;;
      log Warning "Non-admin attempted admin command" [("user_id", JNum user_id)] ;;
      ret tt
    else func update context.

(** The guard's test: no manager, or the manager says no. *)
Definition denied (context : Context) (user_id : Z) : bool :=
  match auth_manager context with
  | None => true
  | Some am => negb (Auth.is_user_allowed am user_id)
  end.

(** ** Python string helpers (ASCII text) *)

Definition is_space (c : ascii) : bool :=
  let n := nat_of_ascii c in
  ((9 <=? n) && (n <=? 13) || (28 <=? n) && (n <=? 32))%nat.

Fixpoint lstrip (s : string) : string :=
  match s with
  | String c s' => if is_space c then lstrip s' else s
  | EmptyString => EmptyString
  end.

(** [s.strip()] *)
Definition strip (s : string) : string :=
  String.rev (lstrip (String.rev (lstrip s))).

Definition lower_ascii (c : ascii) : ascii :=
  let n := nat_of_ascii c in
  if ((65 <=? n) && (n <=? 90))%nat then ascii_of_nat (n + 32) else c.

(** [s.lower()] *)
Fixpoint lower (s : string) : string :=
  match s with
  | String c s' => String (lower_ascii c) (lower s')
  | EmptyString => EmptyString
  end.


(** [s.startswith(p)] *)
Definition startswith (p s : string) : bool := String.prefix p s.

(** [c in s] for a character. *)
Fixpoint has_char (c : ascii) (s : string) : bool :=
  match s with
  | String c' s' => Ascii.eqb c c' || has_char c s'
  | EmptyString => false
  end.

(** [k in d] for a dict. *)
Definition dict_has (d : Dict) (k : string) : bool := bool_decide (is_Some (d !! k)).

(** Truthiness of a dict: non-empty. *)
Definition dict_truthy (d : Dict) : bool := negb (bool_decide (d = ∅)).

(** ** The backend client: [BackendClient] *)

Module Backend.

Definition error_dict (msg : string) : Dict := {["error" := JStr msg]}.

(** How the content of the file part is handed to [client.request] in
    [files={"file": (filename, file_data)}]. *)
Inductive FileContent :=
| ContentBytes        (* a [bytes] object *)
| ContentByteArray.   (* a [bytearray], as [download_as_bytearray] returns it *)

(** What [httpx] makes of the backend's answer when the request carries
    a file part.  Its multipart encoder sends [bytes] as they are and
    reads anything else as a file object, so a [bytearray] makes it raise
    while the body is being sent: a server that would have answered is
    never heard, and a connection that fails anyway fails as it would
    without the file. *)
Definition transport (files : option FileContent) (r : HttpResult) : HttpResult :=
  match files with
  | Some ContentByteArray =>
      match r with
      | Response _ _ _ =>
          HttpException (AttributeError "'bytearray' object has no attribute 'read'")
      | _ => r
      end
  | _ => r
  end.

(** [client.request(...)]: the exchange is observable; [httpx] returns a
    response or raises.  The authentication headers are built before the
    [try] and take no part in what follows. *)
Definition request (files : option FileContent) (method endpoint : string)
    (user_id : Z) (data : Dict) : M (Z * string * option Dict) :=
  emit (BackendRequest method endpoint user_id data) ;;
  w <- get_world ;;
  match transport files (backend w method endpoint user_id) with
  | Response status_code text json => ret (status_code, text, json)
  | HttpTimeout => raise TimeoutException
  | HttpException e => raise e
  end.

(** [response.json()] *)
Definition response_json (json : option Dict) : M Dict :=
  match json with
  | Some d => ret d
  | None => raise JSONDecodeError
  end.

(** [BackendClient._make_request], with its [files] argument. *)
Definition _make_request_files (files : option FileContent)
    (method endpoint : string) (user_id : Z) (data : Dict) : M Dict :=
  try_except
    (response <- request files method endpoint user_id data ;;
     let '(status_code, text, json) := response in
     log Info "Backend request"
       [("method", JStr method); ("endpoint", JStr endpoint);
        ("status", JNum status_code); ("user_id", JNum user_id)] ;;
     if status_code =? 200 then response_json json
     else if status_code =? 401 then
       log Warning "Backend authentication failed" [("user_id", JNum user_id)] ;;
       ret (error_dict "Authentication failed")
     else if status_code =? 404 then
       log Warning "Backend endpoint not found" [("endpoint", JStr endpoint)] ;;
       ret (error_dict "Endpoint not found")
     else
       log Error "Backend request failed"
         [("status", JNum status_code); ("response", JStr text)] ;;
       ret (error_dict ("Request failed with status " ++ py_str status_code)))
    (fun e =>
       match e with
       | TimeoutException =>
           log Error "Backend request timeout" [("endpoint", JStr endpoint)] ;;
           ret (error_dict "Request timeout")
       | _ =>
           log Error "Backend request exception"
             [("endpoint", JStr endpoint); ("error", JStr (exn_str e))] ;;
           ret (error_dict ("Request failed: " ++ exn_str e))
       end).

(** [BackendClient._make_request], [files] at its default [None]. *)
Definition _make_request (method endpoint : string) (user_id : Z) (data : Dict)
    : M Dict :=
  _make_request_files None method endpoint user_id data.

(** [BackendClient.search], [source_filters] at its default. *)
Definition search (user_id : Z) (query : string) (top_k : option Z)
    (include_citations : bool) : M Dict :=
  w <- get_world ;;
  let k := match top_k with
           | Some k => if k =? 0 then search_results_limit (settings w) else k
           | None => search_results_limit (settings w)
           end in
  let data : Dict :=
    {["user_id" := JNum user_id;
      "query" := JStr query;
      "top_k" := JNum k;
      "source_filters" := JList [];
      "include_citations" := JBool include_citations]} in
  _make_request "POST" "/api/search" user_id data.

(** [BackendClient.upload_file]: the file goes as the file part of the
    request, beside [data]. *)
Definition upload_file (user_id : Z) (file_data : FileContent)
    (filename : option string) (metadata : Dict) : M Dict :=
  let data : Dict :=
    {["user_id" := JNum user_id;
      "metadata" := JObj (map_to_list metadata)]} in
  _make_request_files (Some file_data) "POST" "/api/upload" user_id data.

End Backend.

(** ** Text messages: [handlers/messages.py] *)

Module Messages.

(** [context.bot.delete_message(...)] and friends. *)
Definition delete_message (update : Update) : M unit :=
  emit (DeleteMessage (effective_chat_id update)).

Definition non_search_phrases : list string :=
  ["hello"; "hi"; "hey"; "thanks"; "thank you"; "ok"; "okay";
   "yes"; "no"; "sure"; "fine"; "good"; "great"; "nice"].

(** [result.get("error", dflt) if result else other] *)
Definition error_of (result : Dict) (dflt other : string) : Json :=
  if dict_truthy result then dict_get_default result "error" (JStr dflt)
  else JStr other.

(** [handle_natural_language_search].  The formatted answer is one event,
    whether it is sent whole or in chunks of at most 4000 characters. *)
Definition handle_natural_language_search (update : Update) (context : Context)
    (query : string) : M unit :=
  let user_id := effective_user_id update in
  if (String.length (strip query) <? 3)%nat then
    reply_text update MsgQueryTooShort
  else if bool_decide (strip (lower query) ∈ non_search_phrases) then
    reply_text update MsgHello
  else
    reply_text update (MsgSearching query) ;;
    emit (SendChatAction (effective_chat_id update)) ;;
    try_except
      (result <- Backend.search user_id query None true ;;
       delete_message update ;;
       if negb (dict_truthy result) || dict_has result "error" then
         reply_text update
           (MsgSearchError query (error_of result "Unknown error" "Backend unavailable"))
       else
         reply_text update (MsgSearchResults result query) ;;
         reply_text update MsgWhatNext ;;
         log Info "Natural language search completed"
           [("user_id", JNum user_id); ("query", JStr query)])
      (fun e =>
         try_except (delete_message update) (fun _ => ret tt) ;;
         log Error "Natural language search error"
           [("error", JStr (exn_str e)); ("user_id", JNum user_id);
            ("query", JStr query)] ;;
         reply_text update MsgSearchException).

(** [handle_refined_search] *)
Definition handle_refined_search (update : Update) (context : Context)
    (query : string) : M unit :=
  let user_id := effective_user_id update in
  ConversationState.clear_state user_id ;;
  reply_text update (MsgRefinedSearch query) ;;
  try_except
    (result <- Backend.search user_id query (Some 15) true ;;
     delete_message update ;;
     if dict_truthy result && negb (dict_has result "error") then
       reply_text update (MsgRefinedResults result query)
     else
       reply_text update (MsgRefinedError (error_of result "No results" "Search failed")))
    (fun e =>
       try_except (delete_message update) (fun _ => ret tt) ;;
       log Error "Refined search error"
         [("error", JStr (exn_str e)); ("user_id", JNum user_id);
          ("query", JStr query)] ;;
       reply_text update MsgRefinedException).

(** [update.message.text] *)
Definition message_text (update : Update) : M string :=
  match message update with
  | Some m => ret (text m)
  | None => raise (AttributeError "'NoneType' object has no attribute 'text'")
  end.

(** The body of [handle_text_message], under its decorator. *)
Definition handle_text_message_body : Handler :=
  fun update context =>
    let user_id := effective_user_id update in
    text <- message_text update ;;
    if startswith "/" text then ret tt
    else
      current_flow <- ConversationState.get_flow user_id ;;
      if is_JStr "refine_search" current_flow then
        handle_refined_search update context text
      else if is_JStr "upload_file" current_flow then
        reply_text update MsgWaitingForFile
      else
        (if truthy current_flow then ConversationState.clear_state user_id
         else ret tt) ;;
        handle_natural_language_search update context text.

(** [handle_text_message] *)
Definition handle_text_message : Handler := require_auth handle_text_message_body.

End Messages.

(** ** File uploads: [handlers/files.py] *)

Module Files.

(** [os.path.splitext(p)[1]]: from the last dot of the last path
    component, unless only dots precede it there. *)
Fixpoint after_last_sep (s : string) : string :=
  match s with
  | String c s' =>
      if has_char "/" s' then after_last_sep s'
      else if Ascii.eqb c "/" then s' else s
  | EmptyString => EmptyString
  end.

Fixpoint ext_go (only_dots : bool) (s : string) : string :=
  match s with
  | String c s' =>
      if Ascii.eqb c "." then
        if has_char "." s' then ext_go only_dots s'
        else if only_dots then EmptyString else s
      else ext_go false s'
  | EmptyString => EmptyString
  end.

Definition splitext_ext (p : string) : string := ext_go true (after_last_sep p).

(** [get_file_extension] *)
Definition get_file_extension (filename : option string) : string :=
  match filename with
  | Some f => if String.eqb f "" then "" else lower (splitext_ext f)
  | None => ""
  end.

Definition supported_extensions : list string :=
  [".pdf"; ".doc"; ".docx"; ".txt"; ".rtf";
   ".jpg"; ".jpeg"; ".png"; ".gif"; ".bmp";
   ".mp3"; ".wav"; ".ogg"; ".m4a";
   ".csv"; ".xlsx"; ".xls";
   ".md"; ".html"; ".xml"; ".json"].

(** [is_supported_file_type] *)
Definition is_supported_file_type (filename : option string) : bool :=
  match filename with
  | Some f =>
      if String.eqb f "" then false
      else bool_decide (get_file_extension filename ∈ supported_extensions)
  | None => false
  end.

(** [datetime.now().strftime('%Y%m%d_%H%M%S')] *)
Definition strftime_compact (t : Z) : string :=
  let '(y, m, d) := civil_from_days (t / 86400) in
  let s := t mod 86400 in
  pad 4 y ++ pad 2 m ++ pad 2 d ++ "_" ++
  pad 2 (s / 3600) ++ pad 2 (s mod 3600 / 60) ++ pad 2 (s mod 60).

(** The name under which an attachment is uploaded. *)
Definition upload_filename (now : Z) (f : FileObj) : option string :=
  match file_kind f with
  | Document => file_name f
  | Photo => Some ("image_" ++ strftime_compact now ++ ".jpg")
  | Voice => Some ("voice_" ++ strftime_compact now ++ ".ogg")
  | Audio =>
      match file_name f with
      | Some n => if String.eqb n "" then Some ("audio_" ++ strftime_compact now ++ ".mp3")
                  else Some n
      | None => Some ("audio_" ++ strftime_compact now ++ ".mp3")
      end
  end.

Definition json_of_name (filename : option string) : Json :=
  match filename with
  | Some f => JStr f
  | None => JNull
  end.

(** The metadata record sent with the file (size in megabytes, MIME type,
    dimensions and duration are left out: they are floats or optional
    attributes of the Telegram object and nothing below reads them). *)
Definition upload_metadata (now : Z) (user_id : Z) (f : FileObj)
    (filename : option string) (caption : option string) : Dict :=
  let metadata : Dict :=
    {["original_filename" := json_of_name filename;
      "file_size" := match file_size f with Some n => JNum n | None => JNull end;
      "upload_date" := JStr (isoformat now);
      "user_id" := JNum user_id;
      "telegram_file_id" := JStr (file_id f);
      "file_extension" := JStr (get_file_extension filename);
      "supported" := JBool (is_supported_file_type filename)]} in
  match caption with
  | Some c => if String.eqb c "" then metadata
              else <["caption" := JStr c]> (<["has_caption" := JBool true]> metadata)
  | None => metadata
  end.

(** The float nearest to an integer: the integer rounded to 53
    significant bits, ties to even, so an integer of at most 53 bits is
    its own float.  (Beyond the largest float Python raises
    [OverflowError]; the Bot API keeps a file size within 52 bits.) *)
Definition round53 (n : Z) : Z :=
  let a := Z.abs n in
  let e := Z.log2 a - 52 in
  if e <=? 0 then n
  else
    let q := a / 2 ^ e in
    let r := a mod 2 ^ e in
    let half := 2 ^ (e - 1) in
    let q' := if r <? half then q
              else if half <? r then q + 1
              else if Z.even q then q else q + 1 in
    Z.sgn n * (q' * 2 ^ e).

(** [file_size_mb > settings.max_file_size_mb], with
    [file_size_mb = file_size / (1024 * 1024) if file_size else 0].
    The quotient is a float: the division by [2^20] is exact on the float
    of [file_size], and Python compares a float with an integer
    exactly. *)
Definition too_large (c : Config) (f : FileObj) : bool :=
  match file_size f with
  | Some n => if n =? 0 then max_file_size_mb c <? 0
              else max_file_size_mb c * (1024 * 1024) <? round53 n
  | None => max_file_size_mb c <? 0
  end.

(** The body of [handle_file_upload], under its decorator. *)
Definition handle_file_upload_body : Handler :=
  fun update context =>
    let user_id := effective_user_id update in
    current_flow <- ConversationState.get_flow user_id ;;
    if negb (is_JStr "upload_file" current_flow) then
      reply_text update MsgUseUploadFirst
    else
      match message update with
      | None => raise (AttributeError "'NoneType' object has no attribute 'document'")
      | Some msg =>
        match attachment msg with
        | None => reply_text update MsgUnsupportedFileType
        | Some file_obj =>
          w <- get_world ;;
          let filename := upload_filename (now w) file_obj in
          if too_large (settings w) file_obj then
            reply_text update
              (MsgFileTooLarge (max_file_size_mb (settings w))
                 (default 0 (file_size file_obj)))
          else if negb (is_supported_file_type filename) then
            reply_text update (MsgUnsupportedExtension (default "None" filename))
          else
            let name := default "None" filename in
            try_finally
              (try_except
                 (reply_text update (MsgUploadProgress name "Downloading from Telegram...") ;;
                  emit (EditText (MsgUploadProgress name "Uploading to backend...")) ;;
                  let metadata :=
                    upload_metadata (now w) user_id file_obj filename (caption msg) in
                  emit (EditText (MsgUploadProgress name "Processing and indexing...")) ;;
                  (* file_data = await telegram_file.download_as_bytearray() *)
                  result <- Backend.upload_file user_id Backend.ContentByteArray
                              filename metadata ;;
                  if dict_truthy result && negb (dict_has result "error") then
                    let job_id := dict_get result "job_id" in
                    let document_id := dict_get result "document_id" in
                    emit (EditText (MsgUploadSuccess name job_id document_id)) ;;
                    (* Store job info for tracking *)
                    (if truthy job_id then
                       ConversationState.update_state user_id
                         {["last_upload_job" := job_id;
                           "last_upload_file" := json_of_name filename;
                           "last_upload_document_id" := document_id]}
                     else ret tt) ;;
                    emit (SendMessage (effective_chat_id update) (MsgQuickActions job_id))
                  else
                    emit (EditText
                            (MsgUploadFailed name
                               (Messages.error_of result "Unknown error" "Upload failed"))))
                 (fun e =>
                    log Error "File upload error"
                      [("error", JStr (exn_str e)); ("user_id", JNum user_id);
                       ("filename", json_of_name filename)] ;;
                    try_except
                      (emit (EditText (MsgUploadError name)))
                      (fun _ => reply_text update MsgUploadErrorPlain)))
              (* Clear upload flow *)
              (ConversationState.clear_state user_id)
        end
      end.

(** [handle_file_upload] *)
Definition handle_file_upload : Handler := require_auth handle_file_upload_body.

End Files.

(** ** Job callbacks: [server.py] *)

Module Server.



End Server.

(** Two worlds that differ at most in the trace and the connection flag. *)
Definition same_store (w w' : World) : Prop :=
  settings w' = settings w ∧ now w' = now w ∧ redis_up w' = redis_up w ∧
  redis_data w' = redis_data w ∧ backend w' = backend w.

(** What a reachable server holds under a key at the current instant. *)
Definition stored (w : World) (key : string) : option Dict :=
  match redis_data w !! key with
  | Some entry => if Redis.live (now w) entry then Some (fst entry) else None
  | None => None
  end.

(** The outcomes of the request contract, as a tagged result. *)
Inductive Outcome :=
| Success (payload : Dict)
| AuthFailed
| NotFound
| Timeout
| HttpError (status : Z)
| TransportError (message : string).

(** The outcome the contract assigns to what the transport reports.  A
    200 whose body does not parse ends in the handler for any exception. *)
Definition spec_outcome (r : HttpResult) : Outcome :=
  match r with
  | Response status_code _ json =>
      if status_code =? 200 then
        match json with
        | Some d => Success d
        | None => TransportError (exn_str JSONDecodeError)
        end
      else if status_code =? 401 then AuthFailed
      else if status_code =? 404 then NotFound
      else HttpError status_code
  | HttpTimeout => Timeout
  | HttpException TimeoutException => Timeout
  | HttpException e => TransportError (exn_str e)
  end.

(** The dict by which [_make_request] hands each outcome to its caller. *)
Definition outcome_dict (o : Outcome) : Dict :=
  match o with
  | Success d => d
  | AuthFailed => Backend.error_dict "Authentication failed"
  | NotFound => Backend.error_dict "Endpoint not found"
  | Timeout => Backend.error_dict "Request timeout"
  | HttpError status => Backend.error_dict ("Request failed with status " ++ py_str status)
  | TransportError m => Backend.error_dict ("Request failed: " ++ m)
  end.

(** Log records, as opposed to what reaches the chat or the backend. *)
Definition is_log (e : Event) : bool :=
  match e with
  | Log _ _ _ => true
  | _ => false
  end.

(** A coroutine that returns from every world, raising nothing. *)
Definition succeeds {A} (m : M A) : Prop :=
  ∀ w, ∃ a w', m w = (Ret a, w').

(** [all(c == '.' for c in s)] *)
Fixpoint all_dots (s : string) : bool :=
  match s with
  | String c s' => Ascii.eqb c "." && all_dots s'
  | EmptyString => true
  end.

(** ** Python's [int], [str.split] and [str.join] (ASCII text) *)

(** The value of a decimal digit. *)
Definition digit_value (c : ascii) : option Z :=
  let n := nat_of_ascii c in
  if ((48 <=? n) && (n <=? 57))%nat then Some (Z.of_nat (n - 48)) else None.

Fixpoint count_digits (s : string) : nat :=
  match s with
  | String c s' =>
      (match digit_value c with Some _ => 1 | None => 0 end + count_digits s')%nat
  | EmptyString => 0%nat
  end.

(** Decimal digits, with single underscores allowed between two digits. *)
Fixpoint int_digits (acc : Z) (after_digit : bool) (s : string) : option Z :=
  match s with
  | String c s' =>
      match digit_value c with
      | Some d => int_digits (acc * 10 + d) true s'
      | None => if Ascii.eqb c "_" && after_digit then int_digits acc false s'
                else None
      end
  | EmptyString => if after_digit then Some acc else None
  end.

(** [sys.get_int_max_str_digits()], at its default. *)
Definition max_str_digits : nat := 4300.

(** [int(s)] for text: surrounding whitespace is dropped, a sign may
    lead, and what follows is decimal digits, no more of them than the
    limit allows.  [None] stands for [ValueError]. *)
Definition py_int (s : string) : option Z :=
  let s := strip s in
  if (max_str_digits <? count_digits s)%nat then None
  else
    match s with
    | String c r =>
        if Ascii.eqb c "-" then Z.opp <$> int_digits 0 false r
        else if Ascii.eqb c "+" then int_digits 0 false r
        else int_digits 0 false s
    | EmptyString => None
    end.

(** [s.split(sep)] for a separator of one character. *)
Fixpoint str_split (sep : ascii) (s : string) : list string :=
  match s with
  | EmptyString => [EmptyString]
  | String c s' =>
      if Ascii.eqb c sep then EmptyString :: str_split sep s'
      else match str_split sep s' with
           | piece :: rest => String c piece :: rest
           | [] => [String c EmptyString]
           end
  end.

(** [sep.join(pieces)] for a separator of one character. *)
Fixpoint str_join (sep : ascii) (pieces : list string) : string :=
  match pieces with
  | [] => ""
  | [p] => p
  | p :: rest => p ++ String sep (str_join sep rest)
  end.

(** ** Configuration: [config.py] *)

(** The body shared by [Settings.get_allowed_user_ids] and
    [Settings.get_admin_user_ids], applied to the text of the field:
    the pieces between commas that are not blank, each read as an
    integer.  [None] stands for the [ValueError] of a piece that is not
    one. *)
Definition get_user_ids (field : string) : option (list Z) :=
  if String.eqb field "" then Some []
  else
    mapM (λ uid, py_int (strip uid))
      (filter (λ uid, strip uid ≠ "") (str_split "," field)).

(** ** Commands: [handlers/commands.py] *)

Module Commands.

(** The text of an answer carries emoji and other characters outside
    ASCII, and [len], [split] and [strip] go by characters: a text is
    the list of its code points here. *)
Definition newline : N := 10%N.

(** The code points that [strip] takes for whitespace. *)
Definition is_whitespace (c : N) : bool :=
  ((9 <=? c) && (c <=? 13) || (28 <=? c) && (c <=? 32)
   || (c =? 133) || (c =? 160) || (c =? 5760)
   || (8192 <=? c) && (c <=? 8202)
   || (c =? 8232) || (c =? 8233) || (c =? 8239) || (c =? 8287)
   || (c =? 12288))%N.

Fixpoint lstrip (s : list N) : list N :=
  match s with
  | c :: s' => if is_whitespace c then lstrip s' else s
  | [] => []
  end.

(** [s.strip()] *)
Definition strip (s : list N) : list N :=
  reverse (lstrip (reverse (lstrip s))).

(** [s.split(sep)] for a separator of one character. *)
Fixpoint split (sep : N) (s : list N) : list (list N) :=
  match s with
  | [] => [[]]
  | c :: s' =>
      if (c =? sep)%N then [] :: split sep s'
      else match split sep s' with
           | piece :: rest => (c :: piece) :: rest
           | [] => [[c]]
           end
  end.

(** One turn of the loop of [split_long_message] over the lines: the
    chunks closed so far and the chunk being filled. *)
Definition split_step (max_length : Z) (st : list (list N) * list N)
    (line : list N) : list (list N) * list N :=
  let '(chunks, current_chunk) := st in
  if Z.of_nat (length current_chunk) + Z.of_nat (length line) + 1 <=? max_length
  then (chunks, (current_chunk ++ line ++ [newline])%list)
  else ((match current_chunk with
         | [] => chunks
         | _ => chunks ++ [strip current_chunk]
         end)%list,
        (line ++ [newline])%list).

(** [split_long_message] *)
Definition split_long_message (text : list N) (max_length : Z)
    : list (list N) :=
  if Z.of_nat (length text) <=? max_length then [text]
  else
    let '(chunks, current_chunk) :=
      fold_left (split_step max_length) (split newline text) ([], []) in
    match current_chunk with
    | [] => chunks
    | _ => (chunks ++ [strip current_chunk])%list
    end.

End Commands.

(** ** Button presses: [handlers/callbacks.py] *)

Module Callbacks.

(** The handler that the chain of tests in [button_callback] picks for
    the data of a button.  [handle_process_callback] is called there and
    defined nowhere. *)
Inductive Target :=
| handle_connect_callback
| handle_platform_selection
| handle_search_demo
| handle_help_callback
| handle_settings_callback
| handle_cancel_callback
| handle_fetch_callback
| handle_process_callback
| handle_check_job_callback
| handle_upload_callback
| handle_refine_search_callback
| handle_get_documents_callback
| handle_summarize_results_callback
| handle_related_search_callback
| handle_demo_search_callback
| handle_fetch_source_callback
| handle_sync_all_callback
| handle_manage_sources_callback
| handle_refresh_status_callback
| handle_detailed_stats_callback
| unknown_command.

(** The [if]/[elif] chain of [button_callback]. *)
Definition button_target (data : string) : Target :=
  if String.eqb data "connect" then handle_connect_callback
  else if startswith "connect_" data then handle_platform_selection
  else if String.eqb data "search_demo" then handle_search_demo
  else if String.eqb data "help" then handle_help_callback
  else if String.eqb data "settings" then handle_settings_callback
  else if String.eqb data "cancel" then handle_cancel_callback
  else if startswith "fetch_" data then handle_fetch_callback
  else if startswith "process_" data then handle_process_callback
  else if startswith "check_job_" data then handle_check_job_callback
  else if String.eqb data "upload_file" then handle_upload_callback
  else if String.eqb data "refine_search" then handle_refine_search_callback
  else if String.eqb data "get_documents" then handle_get_documents_callback
  else if String.eqb data "summarize_results" then handle_summarize_results_callback
  else if String.eqb data "related_search" then handle_related_search_callback
  else if startswith "demo_search_" data then handle_demo_search_callback
  else if startswith "fetch_source_" data then handle_fetch_source_callback
  else if String.eqb data "sync_all_sources" then handle_sync_all_callback
  else if String.eqb data "manage_sources" then handle_manage_sources_callback
  else if String.eqb data "refresh_status" then handle_refresh_status_callback
  else if String.eqb data "detailed_stats" then handle_detailed_stats_callback
  else unknown_command.

(** What [handle_fetch_callback] does with the data it is handed. *)
Inductive FetchAction :=
| list_sources                 (* data == "fetch_sources" *)
| fetch_documents_from_source  (* data.startswith("fetch_docs_") *)
| no_action.                   (* neither: the function ends *)

Definition fetch_action (data : string) : FetchAction :=
  if String.eqb data "fetch_sources" then list_sources
  else if startswith "fetch_docs_" data then fetch_documents_from_source
  else no_action.

End Callbacks.


(** A coroutine that returns from every world and leaves the store, the
    clock, the settings and the connection flag as they were: it can only
    add to the trace. *)
Definition quiet {A} (m : M A) : Prop :=
  ∀ w, ∃ a w', m w = (Ret a, w') ∧ same_store w w' ∧ connected w' = connected w.

(** A coroutine that, started with the storage client connected, returns
    and leaves the client connected, the server as reachable as it was,
    and the settings and the clock alone. *)
Definition runs_connected {A} (m : M A) : Prop :=
  ∀ w, connected w = true →
    ∃ a w', m w = (Ret a, w') ∧ connected w' = true ∧
            redis_up w' = redis_up w ∧ settings w' = settings w ∧ now w' = now w.


(** ** The admin endpoints: [server.py] *)

Module Admin.

(** What the dependency of the admin endpoints ends in: [True], or the
    response of an [HTTPException]. *)
Inductive Verdict :=
| Authorized
| HTTPException (status_code : Z) (detail : string).

(** [int(v)] for a claim value; a mapping, a list or [None] is a
    [TypeError] and text that is no integer a [ValueError]. *)
Definition int_of_json (v : Json) : M Z :=
  match v with
  | JNum n => ret n
  | JBool b => ret (if b then 1 else 0)
  | JStr s =>
      match py_int s with
      | Some n => ret n
      | None => raise (OtherError "invalid literal for int() with base 10")
      end
  | _ => raise (OtherError "int() argument must be a string or a real number")
  end.

(** [verify_admin_token], for the MAC function [hs256]. *)
Definition verify_admin_token (hs256 : string -> Dict -> Dict -> string)
    (a : Auth.AuthManager) (token : Token) : M Verdict :=
  payload <- verify_backend_token hs256 a token ;;
  match payload with
  | None => ret (HTTPException 401 "Invalid token")
  | Some p =>
      if negb (dict_truthy p) then ret (HTTPException 401 "Invalid token")
      else
        user_id <- int_of_json (dict_get_default p "sub" (JNum 0)) ;;
        if negb (Auth.is_user_admin a user_id)
        then ret (HTTPException 403 "Admin privileges required")
        else ret Authorized
  end.

End Admin.

(** ** Sample configurations and worlds *)

Definition settings_open : Auth.Settings :=
  {| Auth.allowed_user_ids := []; Auth.admin_user_ids := [1];
     Auth.backend_jwt_secret := "secret" |}.

Definition settings_closed : Auth.Settings :=
  {| Auth.allowed_user_ids := [1; 42]; Auth.admin_user_ids := [1];
     Auth.backend_jwt_secret := "secret" |}.

Definition config_default : Config :=
  {| session_timeout_minutes := 30; max_file_size_mb := 50;
     search_results_limit := 10 |}.

(** A backend that starts a job for every request. *)
Definition backend_job : string -> string -> Z -> HttpResult :=
  fun _ _ _ =>
    Response 200 "{}"
      (Some ({["job_id" := JStr "job-1"; "document_id" := JStr "doc-1"]} : Dict)).

Definition world_fresh : World :=
  {| settings := config_default; now := 1700000000; redis_up := true;
     redis_data := ∅; connected := false; backend := backend_job; trace := [] |}.

Definition context_closed : Context :=
  {| auth_manager := Some (Auth.init settings_closed); args := [] |}.

(** A text message from user [u]. *)
Definition text_update (u : Z) (t : string) : Update :=
  {| effective_user_id := u; effective_chat_id := u;
     message := Some {| text := t; attachment := None; caption := None |};
     callback_query := None |}.

(** A button press by user [u]: there is no [message]. *)
Definition button_update (u : Z) (d : string) : Update :=
  {| effective_user_id := u; effective_chat_id := u;
     message := None;
     callback_query := Some {| data := d |} |}.

(** A handler that would search, had it been called. *)
Definition probe_handler : Handler :=
  fun update _ =>
    emit (BackendRequest "POST" "/api/search" (effective_user_id update) ∅).

(** A stand-in MAC, for running the token functions. *)
Definition mac_sample : string -> Dict -> Dict -> string :=
  fun key _ claims =>
    key ++ match claims !! "sub" with Some (JStr s) => s | _ => "" end.

(** The same world with the Redis server out of reach. *)
Definition world_down : World := set_redis_up false world_fresh.

(** A backend that fails every request with a 500. *)
Definition backend_500 : string -> string -> Z -> HttpResult :=
  fun _ _ _ => Response 500 "Internal Server Error" None.

Definition world_500 : World :=
  {| settings := config_default; now := 1700000000; redis_up := true;
     redis_data := ∅; connected := false; backend := backend_500; trace := [] |}.

(** User 42 has entered the upload flow. *)
Definition world_upload : World :=
  snd (ConversationState.set_flow 42 "upload_file" None world_fresh).

(** User 42 is in a flow that text messages know nothing about. *)
Definition world_connecting : World :=
  snd (ConversationState.set_flow 42 "connecting" None world_fresh).

(** User 42 sends a small PDF. *)
Definition file_update (u : Z) : Update :=
  {| effective_user_id := u; effective_chat_id := u;
     message :=
       Some {| text := "";
               attachment :=
                 Some {| file_kind := Document; file_name := Some "report.pdf";
                         file_size := Some 1000; file_id := "file-1" |};
               caption := None |};
     callback_query := None |}.


(** The token issued to user 42 for an hour in [world_fresh]. *)
Definition token_sample : Token :=
  jwt_encode mac_sample
    ({["sub" := JStr (py_str 42); "exp" := JNum (1700000000 + 60 * 60);
       "iat" := JNum 1700000000; "type" := JStr "bot_user"]} : Dict)
    "secret".

(** What user 42 has stored in [world_upload]. *)
Definition state_upload : Dict :=
  <["updated_at" := JStr "2023-11-14T22:13:20"]>
    ({["current_flow" := JStr "upload_file"]} : Dict).

Definition config_no_timeout : Config :=
  {| session_timeout_minutes := 0; max_file_size_mb := 50;
     search_results_limit := 10 |}.

Definition config_negative_timeout : Config :=
  {| session_timeout_minutes := -1; max_file_size_mb := 50;
     search_results_limit := 10 |}.

Definition world_no_timeout : World :=
  {| settings := config_no_timeout; now := 1700000000; redis_up := true;
     redis_data := ∅; connected := true; backend := backend_job; trace := [] |}.

Definition world_negative_timeout : World :=
  {| settings := config_negative_timeout; now := 1700000000; redis_up := true;
     redis_data := ∅; connected := true; backend := backend_job; trace := [] |}.

(** User 42 sends a 60 MB PDF. *)
Definition big_file_update (u : Z) : Update :=
  {| effective_user_id := u; effective_chat_id := u;
     message :=
       Some {| text := "";
               attachment :=
                 Some {| file_kind := Document; file_name := Some "scan.pdf";
                         file_size := Some (60 * 1024 * 1024); file_id := "file-2" |};
               caption := None |};
     callback_query := None |}.

(** User 42 sends a program. *)
Definition exe_file_update (u : Z) : Update :=
  {| effective_user_id := u; effective_chat_id := u;
     message :=
       Some {| text := "";
               attachment :=
                 Some {| file_kind := Document; file_name := Some "setup.exe";
                         file_size := Some 1000; file_id := "file-3" |};
               caption := None |};
     callback_query := None |}.

(** User 1 is an admin and is not on the allow-list, which holds 42 only. *)
Definition settings_admin_only : Auth.Settings :=
  {| Auth.allowed_user_ids := [42]; Auth.admin_user_ids := [1];
     Auth.backend_jwt_secret := "secret" |}.

Definition context_admin_only : Context :=
  {| auth_manager := Some (Auth.init settings_admin_only); args := [] |}.

(** Three lines of four characters, the first of them an emoji. *)
Definition text_three_lines : list N :=
  [128269; 97; 97; 97; 10; 98; 98; 98; 98; 10; 99; 99; 99; 99]%N.

(** User 42 has asked to refine a search. *)
Definition world_refine : World :=
  snd (ConversationState.set_flow 42 "refine_search" None world_fresh).

(** User 42 is in the upload flow and the backend fails every request. *)
Definition world_upload_500 : World :=
  snd (ConversationState.set_flow 42 "upload_file" None world_500).

(** The token issued to the admin, user 1, for an hour in [world_fresh]. *)
Definition token_admin : Token :=
  jwt_encode mac_sample
    ({["sub" := JStr (py_str 1); "exp" := JNum (1700000000 + 60 * 60);
       "iat" := JNum 1700000000; "type" := JStr "bot_user"]} : Dict)
    "secret".


(** * Properties *)

(** Run the monadic plumbing of a goal one layer further. *)
Ltac run_m :=
  cbv beta iota zeta delta
    [bind ret raise try_except try_finally emit log get_world];
  simpl.

(** Close a goal that asks for the log records a run has left. *)
Ltac finish_run :=
  eexists; split;
  [unfold set_trace; simpl; rewrite <- ?app_assoc; simpl; reflexivity
  |reflexivity].

(** ** The authorization gate *)

Section AuthFacts.

Import Auth.

Implicit Types (a : AuthManager) (s : Settings) (u : Z) (ops : list Op).

Lemma list_to_set_size_0 (l : list Z) :
  size (list_to_set l : gset Z) = 0%nat ↔ l = [].
Proof.
  rewrite size_empty_iff. destruct l as [|x l].
  - split; [done | intros _; set_solver].
  - split; [|done]. intros H. exfalso. set_solver.
Qed.

(** The flag of a fresh manager says whether the configured list is empty. *)
Lemma init_allow_all s :
  allow_all_users (init s) = true ↔ allowed_user_ids s = [].
Proof.
  unfold init; simpl. rewrite bool_decide_eq_true. apply list_to_set_size_0.
Qed.

Lemma add_user_flag a u : allow_all_users (snd (add_user a u)) = allow_all_users a.
Proof. unfold add_user. case_bool_decide; reflexivity. Qed.

Lemma remove_user_flag a u :
  allow_all_users (snd (remove_user a u)) = allow_all_users a.
Proof. unfold remove_user. destruct (_ && _); reflexivity. Qed.

Lemma step_flag a o : allow_all_users (step a o) = allow_all_users a.
Proof. destruct o; simpl; [apply add_user_flag | apply remove_user_flag]. Qed.

Lemma run_flag ops : forall a, allow_all_users (run a ops) = allow_all_users a.
Proof.
  induction ops as [|o ops IH]; intros a; simpl; [reflexivity|].
  unfold run in *; simpl. rewrite IH. apply step_flag.
Qed.

(** C4. Every member of the allow-list is allowed, and in allow-all mode
    everybody is; a manager built from an empty configured allow-list is in
    allow-all mode, so there [is_user_allowed] holds of every user id. *)
Theorem is_user_allowed_members_and_allow_all a u :
  (u ∈ allowed_users a → is_user_allowed a u = true) ∧
  (allow_all_users a = true → is_user_allowed a u = true) ∧
  (∀ s, allowed_user_ids s = [] → is_user_allowed (init s) u = true).
Proof.
  unfold is_user_allowed. split; [|split].
  - intros Hin. destruct (allow_all_users a); [reflexivity|].
    by apply bool_decide_eq_true.
  - intros ->. reflexivity.
  - intros s Hs. apply init_allow_all in Hs. by rewrite Hs.
Qed.

(** C5. [remove_user] answers [False] and changes nothing when the user is
    absent from the allow-list or is an admin; otherwise it answers [True]
    and takes exactly that user out of the allow-list. *)
Theorem remove_user_spec a u :
  (u ∉ allowed_users a ∨ u ∈ admin_users a → remove_user a u = (false, a)) ∧
  (u ∈ allowed_users a ∧ u ∉ admin_users a →
     fst (remove_user a u) = true ∧
     allowed_users (snd (remove_user a u)) = allowed_users a ∖ {[u]} ∧
     (u ∉ allowed_users (snd (remove_user a u))) ∧
     admin_users (snd (remove_user a u)) = admin_users a).
Proof.
  unfold remove_user. split.
  - intros [Hout | Hadm].
    + rewrite (bool_decide_eq_false_2 _ Hout). reflexivity.
    + rewrite (bool_decide_eq_false_2 (u ∉ admin_users a)); [|intros Hn; exact (Hn Hadm)].
      by rewrite andb_false_r.
  - intros [Hin Hna].
    rewrite (bool_decide_eq_true_2 _ Hin), (bool_decide_eq_true_2 _ Hna); simpl.
    repeat split. intros [_ Hx]%elem_of_difference.
    apply Hx. by apply elem_of_singleton.
Qed.

(** C10. The allow-all flag is fixed when the manager is built, from
    whether the configured allow-list is empty; no sequence of
    [add_user]/[remove_user] calls changes it.  After an empty start every
    user stays allowed whatever has been added; after a non-empty start
    nobody is allowed once the list has been emptied. *)
Theorem allow_all_fixed_at_construction s ops :
  allow_all_users (run (init s) ops) = allow_all_users (init s) ∧
  (allow_all_users (init s) = true ↔ allowed_user_ids s = []) ∧
  (allowed_user_ids s = [] → ∀ u, is_user_allowed (run (init s) ops) u = true) ∧
  (allowed_user_ids s ≠ [] → allowed_users (run (init s) ops) = ∅ →
     ∀ u, is_user_allowed (run (init s) ops) u = false).
Proof.
  split; [apply run_flag|]. split; [apply init_allow_all|]. split.
  - intros Hs u. unfold is_user_allowed. rewrite run_flag.
    apply init_allow_all in Hs. by rewrite Hs.
  - intros Hs Hempty u. unfold is_user_allowed. rewrite run_flag, Hempty.
    destruct (allow_all_users (init s)) eqn:Hflag.
    + apply init_allow_all in Hflag. contradiction.
    + apply bool_decide_eq_false. set_solver.
Qed.

End AuthFacts.

Lemma is_user_allowed_members_and_allow_all_witness :
  Auth.is_user_allowed (Auth.init settings_closed) 42 = true ∧
  Auth.is_user_allowed (Auth.init settings_open) 42 = true ∧
  Auth.is_user_allowed (Auth.init settings_open) 7 = true.
Proof.
  split; [|split].
  - apply (proj1 (is_user_allowed_members_and_allow_all (Auth.init settings_closed) 42)).
    vm_compute. set_solver.
  - apply (proj1 (proj2 (is_user_allowed_members_and_allow_all (Auth.init settings_open) 42))).
    reflexivity.
  - apply (proj2 (proj2 (is_user_allowed_members_and_allow_all (Auth.init settings_open) 7))).
    reflexivity.
Defined.

Lemma remove_user_spec_witness :
  Auth.remove_user (Auth.init settings_closed) 1 = (false, Auth.init settings_closed) ∧
  Auth.remove_user (Auth.init settings_closed) 9 = (false, Auth.init settings_closed) ∧
  fst (Auth.remove_user (Auth.init settings_closed) 42) = true.
Proof.
  split; [|split].
  - apply (proj1 (remove_user_spec (Auth.init settings_closed) 1)).
    right. by vm_compute.
  - apply (proj1 (remove_user_spec (Auth.init settings_closed) 9)).
    left. by vm_compute.
  - apply (proj2 (remove_user_spec (Auth.init settings_closed) 42)).
    split; by vm_compute.
Defined.

Lemma allow_all_fixed_at_construction_witness :
  Auth.is_user_allowed (Auth.run (Auth.init settings_open) [Auth.AddUser 5]) 7 = true ∧
  Auth.is_user_allowed
    (Auth.run (Auth.init {| Auth.allowed_user_ids := [5]; Auth.admin_user_ids := [];
                            Auth.backend_jwt_secret := "secret" |})
              [Auth.RemoveUser 5]) 7 = false.
Proof.
  split.
  - apply (proj1 (proj2 (proj2 (allow_all_fixed_at_construction settings_open [Auth.AddUser 5])))).
    reflexivity.
  - apply (proj2 (proj2 (proj2 (allow_all_fixed_at_construction _ [Auth.RemoveUser 5])))).
    + discriminate.
    + by vm_compute.
Defined.

(** ** The guards *)

Section GuardFacts.

Implicit Types (func : Handler) (update : Update) (context : Context) (w : World).

Lemma denied_outside_allow_list context am u :
  auth_manager context = Some am →
  Auth.allow_all_users am = false →
  u ∉ Auth.allowed_users am →
  denied context u = true.
Proof.
  intros Ham Hflag Hout. unfold denied, Auth.is_user_allowed.
  rewrite Ham, Hflag. by rewrite (bool_decide_eq_false_2 _ Hout).
Qed.

(** On an update that carries a message, a denied user gets the rejection
    and a warning is logged; the wrapped handler plays no part, and the
    store, the clock and the connection are as before. *)
Lemma require_auth_rejects_message func update context w m :
  message update = Some m →
  denied context (effective_user_id update) = true →
  ∃ w', require_auth func update context w = (Ret tt, w') ∧
        trace w' = (trace w ++
          [ReplyText (effective_chat_id update)
             (MsgUnauthorized (effective_user_id update));
           Log Warning "Unauthorized access attempt"
             [("user_id", JNum (effective_user_id update))]])%list ∧
        redis_data w' = redis_data w ∧ connected w' = connected w ∧
        now w' = now w.
Proof.
  intros Hm Hd. unfold denied in Hd. unfold require_auth. rewrite Hd.
  unfold reply_text. rewrite Hm.
  eexists. split; [reflexivity|]. simpl.
  rewrite <- app_assoc. repeat split.
Qed.

(** C1, evaluated where it fails.  A button press carries no [message];
    for a user outside the allow-list with allow-all off, the guard raises
    on [update.message.reply_text] and leaves the world untouched: the
    handler is not run, nothing is mutated, and no rejection is sent. *)
Theorem require_auth_button_press_no_rejection func update context am w :
  auth_manager context = Some am →
  Auth.allow_all_users am = false →
  effective_user_id update ∉ Auth.allowed_users am →
  message update = None →
  require_auth func update context w =
    (Raise (AttributeError "'NoneType' object has no attribute 'reply_text'"), w).
Proof.
  intros Ham Hflag Hout Hm.
  pose proof (denied_outside_allow_list _ _ _ Ham Hflag Hout) as Hd.
  unfold denied in Hd. unfold require_auth. rewrite Hd.
  unfold reply_text. rewrite Hm. reflexivity.
Qed.

End GuardFacts.

Lemma require_auth_button_press_no_rejection_witness :
  require_auth probe_handler (button_update 999 "search_demo") context_closed world_fresh =
    (Raise (AttributeError "'NoneType' object has no attribute 'reply_text'"), world_fresh).
Proof.
  apply (require_auth_button_press_no_rejection probe_handler
           (button_update 999 "search_demo") context_closed
           (Auth.init settings_closed) world_fresh).
  - reflexivity.
  - reflexivity.
  - by vm_compute.
  - reflexivity.
Defined.

(** ** Backend tokens *)

Section JwtFacts.

Variable hs256 : string -> Dict -> Dict -> string.

Implicit Types (a : Auth.AuthManager) (u : Z) (w : World).

Lemma create_backend_token_eq a u minutes w :
  create_backend_token hs256 a u minutes w =
    (Ret (jwt_encode hs256
            ({["sub" := JStr (py_str u);
               "exp" := JNum (now w + minutes * 60);
               "iat" := JNum (now w);
               "type" := JStr "bot_user"]} : Dict)
            (Auth.jwt_secret a)), w).
Proof. reflexivity. Qed.

(** C9. A token issued for [u] and verified no later than its expiry
    yields claims whose subject is [u]; verified after its expiry, or with
    any other signature in place of its own, it yields [None]. *)
Theorem token_issue_then_verify a u minutes w w' tok :
  fst (create_backend_token hs256 a u minutes w) = Ret tok →
  (now w' <= now w + minutes * 60 →
     ∃ claims, fst (verify_backend_token hs256 a tok w') = Ret (Some claims) ∧
               claims !! "sub" = Some (JStr (py_str u))) ∧
  (now w + minutes * 60 < now w' →
     fst (verify_backend_token hs256 a tok w') = Ret None) ∧
  (∀ sig, sig ≠ tok_signature tok →
     fst (verify_backend_token hs256 a
            {| tok_header := tok_header tok; tok_claims := tok_claims tok;
               tok_signature := sig |} w') = Ret None).
Proof.
  rewrite create_backend_token_eq. simpl. intros [= <-].
  unfold verify_backend_token, bind, get_world, jwt_decode, jwt_encode; simpl.
  assert (Halg : is_JStr "HS256" (dict_get hs256_header "alg") = true)
    by reflexivity.
  rewrite Halg; simpl.
  split; [|split].
  - intros Hle. rewrite String.eqb_refl; simpl.
    rewrite lookup_insert_ne by done. rewrite lookup_insert_eq.
    destruct (Z.ltb_spec (now w + minutes * 60) (now w')) as [Hlt|_]; [lia|].
    simpl. eexists. split; [reflexivity|]. apply lookup_insert_eq.
  - intros Hlt. rewrite String.eqb_refl; simpl.
    rewrite lookup_insert_ne by done. rewrite lookup_insert_eq.
    destruct (Z.ltb_spec (now w + minutes * 60) (now w')) as [_|Hge]; [|lia].
    reflexivity.
  - intros sig Hsig.
    destruct (String.eqb_spec
                (hs256 (Auth.jwt_secret a) hs256_header
                   ({["sub" := JStr (py_str u);
                      "exp" := JNum (now w + minutes * 60);
                      "iat" := JNum (now w);
                      "type" := JStr "bot_user"]} : Dict)) sig) as [Heq|_].
    + exfalso. apply Hsig. symmetry. exact Heq.
    + reflexivity.
Qed.

End JwtFacts.

Lemma token_issue_then_verify_witness :
  (∃ claims,
     fst (verify_backend_token mac_sample (Auth.init settings_closed) token_sample
            (advance 3600 world_fresh)) = Ret (Some claims) ∧
     claims !! "sub" = Some (JStr (py_str 42))) ∧
  fst (verify_backend_token mac_sample (Auth.init settings_closed) token_sample
         (advance 3601 world_fresh)) = Ret None ∧
  fst (verify_backend_token mac_sample (Auth.init settings_closed)
         {| tok_header := tok_header token_sample;
            tok_claims := tok_claims token_sample;
            tok_signature := "forged" |}
         world_fresh) = Ret None.
Proof.
  split; [|split].
  - apply (proj1 (token_issue_then_verify mac_sample (Auth.init settings_closed) 42 60
                    world_fresh (advance 3600 world_fresh) token_sample eq_refl)).
    simpl. lia.
  - apply (proj1 (proj2 (token_issue_then_verify mac_sample (Auth.init settings_closed)
                           42 60 world_fresh (advance 3601 world_fresh) token_sample
                           eq_refl))).
    simpl. lia.
  - apply (proj2 (proj2 (token_issue_then_verify mac_sample (Auth.init settings_closed)
                           42 60 world_fresh world_fresh token_sample eq_refl))).
    discriminate.
Defined.

(** ** The session store *)

Section StorageFacts.

Implicit Types (w : World) (key : string) (u : Z).

Lemma same_store_refl w : same_store w w.
Proof. by repeat split. Qed.

Lemma same_store_trans w1 w2 w3 :
  same_store w1 w2 → same_store w2 w3 → same_store w1 w3.
Proof.
  unfold same_store. intros (?&?&?&?&?) (?&?&?&?&?).
  repeat split; congruence.
Qed.

(** With the server reachable, [connect] succeeds and leaves the client
    connected. *)
Lemma connect_up w :
  redis_up w = true →
  ∃ w', Storage.connect w = (Ret tt, w') ∧ same_store w w' ∧ connected w' = true.
Proof.
  intros Hup. unfold Storage.connect, bind, get_world.
  destruct (connected w) eqn:Hc.
  - exists w. by repeat split.
  - unfold Redis.ping, Redis.command. rewrite Hup. simpl.
    eexists. split; [reflexivity|]. by repeat split.
Qed.

(** Once connected, [connect] does nothing. *)
Lemma connect_connected w :
  connected w = true → Storage.connect w = (Ret tt, w).
Proof. intros Hc. unfold Storage.connect, bind, get_world. by rewrite Hc. Qed.

Lemma storage_get_up key w :
  redis_up w = true →
  ∃ w', Storage.get key w = (Ret (stored w key), w') ∧ same_store w w' ∧
        connected w' = true.
Proof.
  intros Hup. destruct (connect_up w Hup) as (w1 & Hconn & Hsame & Hc).
  destruct Hsame as (Hs & Hn & Hu & Hd & Hb).
  unfold Storage.get, bind. rewrite Hconn.
  unfold try_except, bind, Redis.get, Redis.command. rewrite Hu, Hup.
  unfold stored. rewrite Hd, Hn.
  exists w1. split; [|by repeat split].
  destruct (redis_data w !! key) as [entry|]; [|reflexivity].
  destruct (Redis.live (now w) entry); reflexivity.
Qed.

Lemma storage_set_up key value ttl w :
  redis_up w = true → 0 < ttl →
  ∃ w', Storage.set key value (Some ttl) w = (Ret tt, w') ∧
        redis_data w' = <[key := (value, Some (now w + ttl))]> (redis_data w) ∧
        settings w' = settings w ∧ now w' = now w ∧ redis_up w' = true ∧
        connected w' = true.
Proof.
  intros Hup Httl. destruct (connect_up w Hup) as (w1 & Hconn & Hsame & Hc).
  destruct Hsame as (Hs & Hn & Hu & Hd & Hb).
  unfold Storage.set, bind. rewrite Hconn.
  destruct (Z.eqb_spec ttl 0) as [?|_]; [lia|]. simpl.
  unfold try_except, Redis.setex, Redis.command. rewrite Hu, Hup.
  destruct (Z.leb_spec ttl 0) as [?|_]; [lia|].
  eexists. split; [reflexivity|]. simpl. rewrite Hd, Hn.
  repeat split; congruence.
Qed.

(** C6. A [set_state] stamps [updated_at] and stores the state to expire
    one full session timeout after the instant of this write, whatever was
    stored before; read back after [d] seconds with no write in between,
    [get_state] returns the stored map while [d] is less than the timeout
    and the empty map from then on. *)
Theorem set_state_sliding_ttl w u (st : Dict) d :
  redis_up w = true →
  0 < session_timeout_minutes (settings w) →
  0 <= d →
  ∃ w1,
    ConversationState.set_state u st w = (Ret tt, w1) ∧
    redis_data w1 !! ConversationState._get_key u =
      Some (<["updated_at" := JStr (isoformat (now w))]> st,
            Some (now w + session_timeout_minutes (settings w) * 60)) ∧
    fst (ConversationState.get_state u (advance d w1)) =
      Ret (if d <? session_timeout_minutes (settings w) * 60
           then <["updated_at" := JStr (isoformat (now w))]> st
           else ∅).
Proof.
  intros Hup Hpos Hd0.
  set (t := session_timeout_minutes (settings w) * 60).
  set (stamped := <["updated_at" := JStr (isoformat (now w))]> st).
  assert (Ht : 0 < t) by (unfold t; lia).
  destruct (storage_set_up (ConversationState._get_key u) stamped t w Hup Ht)
    as (w1 & Hset & Hd & Hs & Hn & Hu & Hc).
  exists w1.
  assert (Hrun : ConversationState.set_state u st w = (Ret tt, w1)).
  { unfold ConversationState.set_state, bind, get_world.
    unfold ConversationState.default_ttl. exact Hset. }
  split; [exact Hrun|].
  assert (Hlook : redis_data w1 !! ConversationState._get_key u =
                  Some (stamped, Some (now w + t))).
  { rewrite Hd. apply lookup_insert_eq. }
  split; [exact Hlook|].
  destruct (storage_get_up (ConversationState._get_key u) (advance d w1))
    as (w2 & Hg & _); [exact Hu|].
  unfold ConversationState.get_state, bind. rewrite Hg. simpl.
  unfold stored; simpl. rewrite Hlook. unfold Redis.live; simpl. rewrite Hn.
  destruct (Z.ltb_spec (now w + d) (now w + t));
    destruct (Z.ltb_spec d t); try lia; reflexivity.
Qed.


Lemma storage_set_down_connected key value ttl w :
  connected w = true → redis_up w = false →
  Storage.set key value ttl w =
    (Ret tt,
     set_trace (trace w ++
       [Log Error "Redis set error"
          [("key", JStr key); ("error", JStr "Error connecting to Redis")]])%list w).
Proof.
  intros Hc Hup. unfold Storage.set, bind. rewrite (connect_connected w Hc).
  unfold try_except, Redis.setex, Redis.set, Redis.command.
  destruct ttl as [t|]; [destruct (negb (t =? 0))|]; rewrite Hup; reflexivity.
Qed.

(** C7, evaluated where it fails.  [connect] stands before the [try]:
    while the client has not connected yet, an unreachable server makes a
    read and a write raise instead of answering [None] or dropping the
    write, nothing is logged, and a text message from an allowed user ends
    in that exception. *)
Theorem storage_failure_before_connect_propagates key value ttl w update context m :
  connected w = false → redis_up w = false →
  message update = Some m → startswith "/" (text m) = false →
  denied context (effective_user_id update) = false →
  Storage.get key w = (Raise (ConnectionError "Error connecting to Redis"), w) ∧
  Storage.set key value ttl w = (Raise (ConnectionError "Error connecting to Redis"), w) ∧
  Messages.handle_text_message update context w =
    (Raise (ConnectionError "Error connecting to Redis"), w).
Proof.
  intros Hc Hup Hm Hslash Hd.
  assert (Hconn : Storage.connect w =
                  (Raise (ConnectionError "Error connecting to Redis"), w)).
  { unfold Storage.connect, bind, get_world. rewrite Hc.
    unfold Redis.ping, Redis.command. by rewrite Hup. }
  assert (Hget : ∀ k, Storage.get k w =
                      (Raise (ConnectionError "Error connecting to Redis"), w)).
  { intros k. unfold Storage.get, bind. by rewrite Hconn. }
  split; [apply Hget|]. split.
  - unfold Storage.set, bind. by rewrite Hconn.
  - unfold Messages.handle_text_message, require_auth.
    unfold denied in Hd. rewrite Hd.
    unfold Messages.handle_text_message_body, Messages.message_text, bind.
    rewrite Hm. unfold ret. rewrite Hslash.
    unfold ConversationState.get_flow, ConversationState.get_state, bind.
    by rewrite Hget.
Qed.

End StorageFacts.

Lemma set_state_sliding_ttl_witness :
  ∃ w1,
    ConversationState.set_state 42 {["current_flow" := JStr "upload_file"]} world_fresh =
      (Ret tt, w1) ∧
    fst (ConversationState.get_state 42 (advance 1799 w1)) =
      Ret (<["updated_at" := JStr "2023-11-14T22:13:20"]>
             ({["current_flow" := JStr "upload_file"]} : Dict)) ∧
    fst (ConversationState.get_state 42 (advance 1800 w1)) = Ret ∅.
Proof.
  destruct (set_state_sliding_ttl world_fresh 42
              {["current_flow" := JStr "upload_file"]} 1799)
    as (w1 & Hrun & _ & Hbefore); [reflexivity | reflexivity | lia |].
  destruct (set_state_sliding_ttl world_fresh 42
              {["current_flow" := JStr "upload_file"]} 1800)
    as (w1' & Hrun' & _ & Hafter); [reflexivity | reflexivity | lia |].
  exists w1. split; [exact Hrun|]. split; [exact Hbefore|].
  rewrite Hrun in Hrun'. injection Hrun' as <-. exact Hafter.
Defined.

Lemma storage_failure_before_connect_propagates_witness :
  Storage.get "conversation:42:main" world_down =
    (Raise (ConnectionError "Error connecting to Redis"), world_down) ∧
  Storage.set "conversation:42:main" ∅ (Some 1800) world_down =
    (Raise (ConnectionError "Error connecting to Redis"), world_down) ∧
  Messages.handle_text_message (text_update 42 "quarterly report") context_closed
      world_down =
    (Raise (ConnectionError "Error connecting to Redis"), world_down).
Proof.
  apply (storage_failure_before_connect_propagates "conversation:42:main" ∅
           (Some 1800) world_down (text_update 42 "quarterly report")
           context_closed {| text := "quarterly report"; attachment := None;
                             caption := None |});
    reflexivity.
Defined.

(** ** The backend request contract *)

Section BackendFacts.

Implicit Types (w : World) (method endpoint : string) (user_id : Z) (data : Dict).

Lemma error_dict_inj m1 m2 :
  Backend.error_dict m1 = Backend.error_dict m2 → m1 = m2.
Proof.
  unfold Backend.error_dict. intros H.
  apply (f_equal (λ d : Dict, d !! "error")) in H.
  rewrite !lookup_singleton_eq in H. by injection H.
Qed.

(** With or without a file part, [_make_request] returns the dict of
    the outcome of what the transport reports. *)
Lemma make_request_files_outcome files method endpoint user_id data w :
  fst (Backend._make_request_files files method endpoint user_id data w) =
    Ret (outcome_dict
           (spec_outcome
              (Backend.transport files (backend w method endpoint user_id)))).
Proof.
  unfold Backend._make_request_files, Backend.request. run_m.
  destruct (Backend.transport files (backend w method endpoint user_id))
    as [sc text json| |e]; run_m.
  - destruct (sc =? 200); run_m.
    { destruct json; reflexivity. }
    destruct (sc =? 401); run_m; [reflexivity|].
    destruct (sc =? 404); reflexivity.
  - reflexivity.
  - destruct e; reflexivity.
Qed.

(** [_make_request] returns the dict of the contract's outcome. *)
Lemma make_request_outcome method endpoint user_id data w :
  fst (Backend._make_request method endpoint user_id data w) =
    Ret (outcome_dict (spec_outcome (backend w method endpoint user_id))).
Proof. apply (make_request_files_outcome None). Qed.

(** A backend call is one exchange followed by log records; it returns
    the dict of the outcome and changes nothing but the trace. *)
Lemma make_request_files_run files method endpoint user_id data w :
  ∃ logs,
    Backend._make_request_files files method endpoint user_id data w =
      (Ret (outcome_dict
              (spec_outcome
                 (Backend.transport files (backend w method endpoint user_id)))),
       set_trace
         (trace w ++ BackendRequest method endpoint user_id data :: logs)%list w) ∧
    forallb is_log logs = true.
Proof.
  unfold Backend._make_request_files, Backend.request. run_m.
  destruct (Backend.transport files (backend w method endpoint user_id))
    as [sc text json| |e]; run_m.
  - destruct (sc =? 200); run_m.
    { destruct json; run_m; finish_run. }
    destruct (sc =? 401); run_m; [finish_run|].
    destruct (sc =? 404); run_m; finish_run.
  - finish_run.
  - destruct e; run_m; finish_run.
Qed.

Lemma make_request_run method endpoint user_id data w :
  ∃ logs,
    Backend._make_request method endpoint user_id data w =
      (Ret (outcome_dict (spec_outcome (backend w method endpoint user_id))),
       set_trace
         (trace w ++ BackendRequest method endpoint user_id data :: logs)%list w) ∧
    forallb is_log logs = true.
Proof. apply (make_request_files_run None). Qed.



(** C3. Every request ends in exactly one outcome, handed back as a dict
    and never as an exception: 200 gives the parsed body, 401 the
    authentication failure, 404 the not-found failure, a timeout the
    timeout failure, any other status the HTTP failure whose message keeps
    the status code, and any other exception the transport failure with
    its message.  For the HTTP failure the raw response body goes into
    the error record logged with it. *)
Theorem make_request_classification method endpoint user_id data w :
  fst (Backend._make_request method endpoint user_id data w) =
    Ret (outcome_dict (spec_outcome (backend w method endpoint user_id))) ∧
  (∀ s1 s2, outcome_dict (HttpError s1) = outcome_dict (HttpError s2) → s1 = s2) ∧
  (∀ status_code text json,
     backend w method endpoint user_id = Response status_code text json →
     spec_outcome (backend w method endpoint user_id) = HttpError status_code →
     trace (snd (Backend._make_request method endpoint user_id data w)) =
       (trace w ++
        [BackendRequest method endpoint user_id data;
         Log Info "Backend request"
           [("method", JStr method); ("endpoint", JStr endpoint);
            ("status", JNum status_code); ("user_id", JNum user_id)];
         Log Error "Backend request failed"
           [("status", JNum status_code); ("response", JStr text)]])%list).
Proof.
  split; [apply make_request_outcome|split].
  - intros s1 s2 H. simpl in H. apply error_dict_inj in H.
    apply (inj (String.app "Request failed with status ")) in H.
    unfold py_str in H. by apply (inj pretty) in H.
  - intros sc text json Hb Ho. rewrite Hb in Ho. simpl in Ho.
    unfold Backend._make_request, Backend._make_request_files, Backend.request,
      Backend.transport. run_m. rewrite Hb; run_m.
    destruct (sc =? 200); [destruct json; discriminate|].
    destruct (sc =? 401); [discriminate|].
    destruct (sc =? 404); [discriminate|].
    run_m. rewrite <- !app_assoc. reflexivity.
Qed.

End BackendFacts.

Lemma make_request_classification_witness :
  fst (Backend._make_request "POST" "/api/search" 42 ∅ world_500) =
    Ret (Backend.error_dict "Request failed with status 500") ∧
  trace (snd (Backend._make_request "POST" "/api/search" 42 ∅ world_500)) =
    [BackendRequest "POST" "/api/search" 42 ∅;
     Log Info "Backend request"
       [("method", JStr "POST"); ("endpoint", JStr "/api/search");
        ("status", JNum 500); ("user_id", JNum 42)];
     Log Error "Backend request failed"
       [("status", JNum 500); ("response", JStr "Internal Server Error")]].
Proof.
  split.
  - apply (proj1 (make_request_classification "POST" "/api/search" 42 ∅ world_500)).
  - apply (proj2 (proj2 (make_request_classification "POST" "/api/search" 42 ∅
                           world_500)) 500 "Internal Server Error" None);
      reflexivity.
Defined.

(** ** Text messages *)

Section MessageFacts.

Implicit Types (w : World) (update : Update) (context : Context).

Lemma is_JStr_true s v : is_JStr s v = true ↔ v = JStr s.
Proof.
  destruct v; simpl; try (split; [discriminate | intros [=]]).
  rewrite String.eqb_eq. split; [by intros -> | by intros [= ->]].
Qed.

Lemma is_JStr_false s v : v ≠ JStr s → is_JStr s v = false.
Proof.
  intros Hne. destruct (is_JStr s v) eqn:H; [|reflexivity].
  apply is_JStr_true in H. contradiction.
Qed.

Lemma succeeds_ret {A} (a : A) : succeeds (ret a).
Proof. intros w. by exists a, w. Qed.








(** A store read that returns leaves the client connected, the store as
    it was, and only log records behind. *)
Lemma storage_get_returns key w r w1 :
  Storage.get key w = (Ret r, w1) →
  connected w1 = true ∧ same_store w w1 ∧
  ∃ logs, trace w1 = (trace w ++ logs)%list ∧ forallb is_log logs = true.
Proof.
  unfold Storage.get, Storage.connect, Redis.ping, Redis.get, Redis.command.
  run_m. destruct (connected w) eqn:Hc; run_m.
  - destruct (redis_up w) eqn:Hup; run_m.
    + destruct (redis_data w !! key) as [entry|]; [destruct (Redis.live _ _)|];
        intros [= <- <-]; (split; [exact Hc|]); (split; [apply same_store_refl|]);
        exists []; by rewrite app_nil_r.
    + intros [= <- <-]. split; [exact Hc|]. split; [by repeat split|].
      by eexists [_].
  - destruct (redis_up w) eqn:Hup; run_m; [|discriminate].
    rewrite Hup; run_m.
    destruct (redis_data w !! key) as [entry|]; [destruct (Redis.live _ _)|];
      intros [= <- <-]; (split; [reflexivity|]); (split; [by repeat split|]);
      by eexists [_].
Qed.

Lemma get_flow_returns u w flow w1 :
  ConversationState.get_flow u w = (Ret flow, w1) →
  connected w1 = true ∧ same_store w w1 ∧
  ∃ logs, trace w1 = (trace w ++ logs)%list ∧ forallb is_log logs = true.
Proof.
  unfold ConversationState.get_flow, ConversationState.get_state, bind.
  destruct (Storage.get _ w) as [[r|e] w'] eqn:Hg; [|discriminate].
  unfold ret. intros [= _ <-]. by eapply storage_get_returns.
Qed.

(** With the client connected, clearing the state returns; if the server
    is reachable the key is gone. *)
Lemma clear_state_connected u w :
  connected w = true →
  ∃ w', ConversationState.clear_state u w = (Ret tt, w') ∧
        (redis_up w = true → redis_data w' !! ConversationState._get_key u = None).
Proof.
  intros Hc. unfold ConversationState.clear_state, Storage.delete, bind.
  rewrite (connect_connected w Hc).
  unfold try_except, Redis.delete, Redis.command.
  destruct (redis_up w) eqn:Hup.
  - eexists. split; [reflexivity|]. intros _. simpl. apply lookup_delete_eq.
  - eexists. split; [reflexivity|]. discriminate.
Qed.


(** Clearing the state on a reachable server deletes the user's key. *)
Lemma clear_state_run u w :
  connected w = true → redis_up w = true →
  ConversationState.clear_state u w =
    (Ret tt,
     set_redis_data (delete (ConversationState._get_key u) (redis_data w)) w).
Proof.
  intros Hc Hup. unfold ConversationState.clear_state, Storage.delete, bind.
  rewrite (connect_connected w Hc).
  unfold try_except, Redis.delete, Redis.command. by rewrite Hup.
Qed.




End MessageFacts.


(** ** Job correlation *)

Section JobFacts.





End JobFacts.


(** * Further properties *)

(** ** The conversation state manager *)

Section StateFacts.

Implicit Types (w : World) (u : Z) (st upd : Dict).

(** A read of the state returns what the server holds, [{}] for nothing. *)
Lemma get_state_up u w :
  redis_up w = true →
  ∃ w', ConversationState.get_state u w =
          (Ret (default ∅ (stored w (ConversationState._get_key u))), w') ∧
        same_store w w' ∧ connected w' = true.
Proof.
  intros Hup.
  destruct (storage_get_up (ConversationState._get_key u) w Hup)
    as (w' & Hg & Hsame & Hc).
  exists w'. split; [|by split].
  unfold ConversationState.get_state, bind. rewrite Hg. unfold ret.
  destruct (stored _ _); reflexivity.
Qed.

Lemma set_state_up u st w :
  redis_up w = true → 0 < session_timeout_minutes (settings w) →
  ∃ w', ConversationState.set_state u st w = (Ret tt, w') ∧
        redis_data w' =
          <[ConversationState._get_key u :=
              (<["updated_at" := JStr (isoformat (now w))]> st,
               Some (now w + session_timeout_minutes (settings w) * 60))]>
            (redis_data w) ∧
        settings w' = settings w ∧ now w' = now w ∧ redis_up w' = true ∧
        connected w' = true.
Proof.
  intros Hup Hpos.
  assert (Ht : 0 < session_timeout_minutes (settings w) * 60) by lia.
  destruct (storage_set_up (ConversationState._get_key u)
              (<["updated_at" := JStr (isoformat (now w))]> st) _ w Hup Ht)
    as (w' & Hset & Hrest).
  exists w'. split; [|exact Hrest].
  unfold ConversationState.set_state, bind, get_world.
  unfold ConversationState.default_ttl. exact Hset.
Qed.

(** What is stored for a key right after it has been written. *)
Lemma stored_after_insert w' w key v ttl :
  redis_data w' = <[key := (v, Some (now w + ttl))]> (redis_data w) →
  now w' = now w → 0 < ttl →
  stored w' key = Some v.
Proof.
  intros Hd Hn Ht. unfold stored. rewrite Hd, lookup_insert_eq.
  unfold Redis.live; simpl. rewrite Hn.
  destruct (Z.ltb_spec (now w) (now w + ttl)); [reflexivity|lia].
Qed.

Lemma stored_after_insert_ne w' w key key' v e :
  redis_data w' = <[key := (v, e)]> (redis_data w) →
  now w' = now w → key ≠ key' →
  stored w' key' = stored w key'.
Proof.
  intros Hd Hn Hne. unfold stored. rewrite Hd, lookup_insert_ne by done.
  by rewrite Hn.
Qed.

(** What [update_state] leaves to be read back. *)
Lemma update_state_read_back u upd w :
  redis_up w = true →
  0 < session_timeout_minutes (settings w) →
  ∃ w1,
    ConversationState.update_state u upd w = (Ret tt, w1) ∧
    redis_up w1 = true ∧ now w1 = now w ∧
    fst (ConversationState.get_state u w1) =
      Ret (<["updated_at" := JStr (isoformat (now w))]>
             (upd ∪ default ∅ (stored w (ConversationState._get_key u)))).
Proof.
  intros Hup Hpos.
  destruct (get_state_up u w Hup) as (w0 & Hg & (Hs0 & Hn0 & Hu0 & Hd0 & Hb0) & Hc0).
  destruct (set_state_up u
              (dict_update (default ∅ (stored w (ConversationState._get_key u))) upd)
              w0) as (w1 & Hset & Hd1 & Hs1 & Hn1 & Hu1 & Hc1);
    [congruence | congruence |].
  exists w1. split; [|split; [exact Hu1|split; [congruence|]]].
  - unfold ConversationState.update_state, bind. by rewrite Hg.
  - destruct (get_state_up u w1 Hu1) as (w2 & Hg2 & _). rewrite Hg2. simpl.
    rewrite (stored_after_insert w1 w0 _ _ _ Hd1 Hn1); [|rewrite Hs0; lia].
    simpl. unfold dict_update. by rewrite Hn0.
Qed.

Lemma get_flow_of_state u w s :
  fst (ConversationState.get_state u w) = Ret s →
  fst (ConversationState.get_flow u w) = Ret (dict_get s "current_flow") ∧
  fst (ConversationState.get_flow_data u w) =
    Ret (dict_get_default s "flow_data" (JObj [])).
Proof.
  unfold ConversationState.get_flow, ConversationState.get_flow_data, bind.
  destruct (ConversationState.get_state u w) as [[s'|e] w']; simpl;
    [|discriminate].
  by intros [= ->].
Qed.

(** X1. [update_state] merges: read back afterwards, every key of the
    update has the update's value, every other key except [updated_at]
    has the value it had, and [updated_at] is the instant of the write. *)
Theorem update_state_merges u upd w old :
  redis_up w = true →
  0 < session_timeout_minutes (settings w) →
  fst (ConversationState.get_state u w) = Ret old →
  ∃ w1 new,
    ConversationState.update_state u upd w = (Ret tt, w1) ∧
    fst (ConversationState.get_state u w1) = Ret new ∧
    new !! "updated_at" = Some (JStr (isoformat (now w))) ∧
    (∀ k v, k ≠ "updated_at" → upd !! k = Some v → new !! k = Some v) ∧
    (∀ k, k ≠ "updated_at" → upd !! k = None → new !! k = old !! k).
Proof.
  intros Hup Hpos Hold.
  destruct (get_state_up u w Hup) as (w0 & Hg & _).
  rewrite Hg in Hold. simpl in Hold. injection Hold as Hold.
  destruct (update_state_read_back u upd w Hup Hpos) as (w1 & Hrun & _ & _ & Hread).
  eexists w1, _. split; [exact Hrun|]. split; [exact Hread|].
  rewrite Hold. split; [apply lookup_insert_eq|]. split.
  - intros k v Hk Hv. rewrite lookup_insert_ne by done.
    by apply lookup_union_Some_l.
  - intros k Hk Hnone. rewrite lookup_insert_ne by done.
    by apply lookup_union_r.
Qed.


End StateFacts.

Section StateEdgeFacts.

Implicit Types (w : World) (u : Z) (st : Dict) (s t : string).

Lemma string_length_app s t :
  String.length (s ++ t) = (String.length s + String.length t)%nat.
Proof. induction s as [|c s IH]; simpl; [reflexivity | by rewrite IH]. Qed.

Lemma string_app_inj_r s1 s2 t : (s1 ++ t = s2 ++ t)%string → s1 = s2.
Proof.
  revert s2. induction s1 as [|c s1 IH]; intros [|c2 s2] H; simpl in H.
  - reflexivity.
  - apply (f_equal String.length) in H. simpl in H.
    rewrite !string_length_app in H. simpl in H. lia.
  - apply (f_equal String.length) in H. simpl in H.
    rewrite !string_length_app in H. simpl in H. lia.
  - injection H as -> H. f_equal. by apply IH.
Qed.

(** Different users have different keys. *)
Lemma get_key_inj u u' :
  ConversationState._get_key u = ConversationState._get_key u' → u = u'.
Proof.
  unfold ConversationState._get_key. intros H.
  apply (inj (String.app "conversation:")) in H.
  apply string_app_inj_r in H. unfold py_str in H. by apply (inj pretty) in H.
Qed.

(** X3. States are per user: a write for one user leaves what any other
    user reads as it was. *)
Theorem set_state_other_user u u' st w :
  redis_up w = true →
  0 < session_timeout_minutes (settings w) →
  u ≠ u' →
  ∃ w1,
    ConversationState.set_state u st w = (Ret tt, w1) ∧
    fst (ConversationState.get_state u' w1) =
      fst (ConversationState.get_state u' w).
Proof.
  intros Hup Hpos Hne.
  destruct (set_state_up u st w Hup Hpos) as (w1 & Hset & Hd & Hs & Hn & Hu & Hc).
  exists w1. split; [exact Hset|].
  destruct (get_state_up u' w1 Hu) as (w2 & -> & _).
  destruct (get_state_up u' w Hup) as (w3 & -> & _). simpl.
  rewrite (stored_after_insert_ne w1 w _ _ _ _ Hd Hn); [reflexivity|].
  intros Hk. apply Hne. by apply get_key_inj.
Qed.

(** X4. After [clear_state] on a reachable server the user is in no
    flow: the state reads as [{}], the flow as [None], the flow data as
    [{}]. *)
Theorem clear_state_then_no_flow u w :
  redis_up w = true →
  ∃ w1,
    ConversationState.clear_state u w = (Ret tt, w1) ∧
    fst (ConversationState.get_state u w1) = Ret ∅ ∧
    fst (ConversationState.get_flow u w1) = Ret JNull ∧
    fst (ConversationState.get_flow_data u w1) = Ret (JObj []).
Proof.
  intros Hup.
  destruct (connect_up w Hup) as (w0 & Hconn & (Hs & Hn & Hu & Hd & Hb) & Hc).
  assert (Hrun : ConversationState.clear_state u w =
            (Ret tt, set_redis_data
                       (delete (ConversationState._get_key u) (redis_data w0)) w0)).
  { unfold ConversationState.clear_state, Storage.delete, bind. rewrite Hconn.
    unfold try_except, Redis.delete, Redis.command. by rewrite Hu, Hup. }
  eexists. split; [exact Hrun|].
  assert (Hstate : fst (ConversationState.get_state u
              (set_redis_data (delete (ConversationState._get_key u)
                                 (redis_data w0)) w0)) = Ret ∅).
  { destruct (get_state_up u (set_redis_data
                (delete (ConversationState._get_key u) (redis_data w0)) w0))
      as (w2 & -> & _); [simpl; congruence|].
    simpl. unfold stored; simpl. by rewrite lookup_delete_eq. }
  split; [exact Hstate|].
  destruct (get_flow_of_state u _ _ Hstate) as [-> ->]. by split.
Qed.

(** X5. With a session timeout of 0 the write carries no expiry: the
    state is read back unchanged however much later. *)
Theorem set_state_zero_timeout_never_expires u st w d :
  redis_up w = true →
  session_timeout_minutes (settings w) = 0 →
  0 <= d →
  ∃ w1,
    ConversationState.set_state u st w = (Ret tt, w1) ∧
    fst (ConversationState.get_state u (advance d w1)) =
      Ret (<["updated_at" := JStr (isoformat (now w))]> st).
Proof.
  intros Hup Hzero Hd.
  destruct (connect_up w Hup) as (w0 & Hconn & (Hs & Hn & Hu & Hdat & Hb) & Hc).
  set (stamped := <["updated_at" := JStr (isoformat (now w))]> st).
  assert (Hrun : ConversationState.set_state u st w =
            (Ret tt, set_redis_data
                       (<[ConversationState._get_key u := (stamped, None)]>
                          (redis_data w0)) w0)).
  { unfold ConversationState.set_state, bind, get_world.
    unfold ConversationState.default_ttl. rewrite Hzero. simpl.
    unfold Storage.set, bind. rewrite Hconn. simpl.
    unfold try_except, Redis.set, Redis.command. by rewrite Hu, Hup. }
  eexists. split; [exact Hrun|].
  match goal with |- fst (ConversationState.get_state u ?w') = _ =>
    destruct (get_state_up u w') as (w2 & -> & _); [simpl; congruence|]
  end.
  simpl. unfold stored; simpl. by rewrite lookup_insert_eq.
Qed.

(** X6. With a negative session timeout the server refuses the write;
    the refusal is logged and swallowed, and the store keeps what it had,
    so the state is never written. *)
Theorem set_state_negative_timeout_dropped u st w :
  redis_up w = true →
  connected w = true →
  session_timeout_minutes (settings w) < 0 →
  ConversationState.set_state u st w =
    (Ret tt,
     set_trace (trace w ++
       [Log Error "Redis set error"
          [("key", JStr (ConversationState._get_key u));
           ("error", JStr "invalid expire time in setex")]])%list w).
Proof.
  intros Hup Hc Hneg.
  unfold ConversationState.set_state, bind, get_world.
  unfold ConversationState.default_ttl, Storage.set, bind.
  rewrite (connect_connected w Hc).
  destruct (Z.eqb_spec (session_timeout_minutes (settings w) * 60) 0); [lia|].
  simpl. unfold try_except, Redis.setex, Redis.command. rewrite Hup.
  destruct (Z.leb_spec (session_timeout_minutes (settings w) * 60) 0); [|lia].
  reflexivity.
Qed.

End StateEdgeFacts.

Lemma update_state_merges_witness :
  ∃ w1 new,
    ConversationState.update_state 42 {["last_upload_job" := JStr "job-1"]}
      world_upload = (Ret tt, w1) ∧
    fst (ConversationState.get_state 42 w1) = Ret new ∧
    new !! "last_upload_job" = Some (JStr "job-1") ∧
    new !! "current_flow" = Some (JStr "upload_file").
Proof.
  destruct (update_state_merges 42 {["last_upload_job" := JStr "job-1"]}
              world_upload state_upload)
    as (w1 & new & Hrun & Hread & _ & Hupd & Hkeep);
    [reflexivity | reflexivity | vm_compute; reflexivity |].
  exists w1, new. split; [exact Hrun|]. split; [exact Hread|]. split.
  - apply Hupd; [discriminate | reflexivity].
  - rewrite Hkeep; [reflexivity | discriminate | reflexivity].
Defined.


Lemma set_state_other_user_witness :
  ∃ w1,
    ConversationState.set_state 7 ∅ world_upload = (Ret tt, w1) ∧
    fst (ConversationState.get_state 42 w1) =
      fst (ConversationState.get_state 42 world_upload).
Proof.
  apply (set_state_other_user 7 42 ∅ world_upload); [reflexivity | reflexivity | lia].
Defined.

Lemma clear_state_then_no_flow_witness :
  ∃ w1,
    ConversationState.clear_state 42 world_upload = (Ret tt, w1) ∧
    fst (ConversationState.get_state 42 w1) = Ret ∅ ∧
    fst (ConversationState.get_flow 42 w1) = Ret JNull ∧
    fst (ConversationState.get_flow_data 42 w1) = Ret (JObj []).
Proof. apply (clear_state_then_no_flow 42 world_upload). reflexivity. Defined.

Lemma set_state_zero_timeout_never_expires_witness :
  ∃ w1,
    ConversationState.set_state 42 ∅ world_no_timeout = (Ret tt, w1) ∧
    fst (ConversationState.get_state 42 (advance 31536000 w1)) =
      Ret (<["updated_at" := JStr (isoformat 1700000000)]> (∅ : Dict)).
Proof.
  apply (set_state_zero_timeout_never_expires 42 ∅ world_no_timeout 31536000);
    [reflexivity | reflexivity | lia].
Defined.

Lemma set_state_negative_timeout_dropped_witness :
  ConversationState.set_state 42 ∅ world_negative_timeout =
    (Ret tt,
     set_trace
       [Log Error "Redis set error"
          [("key", JStr (ConversationState._get_key 42));
           ("error", JStr "invalid expire time in setex")]]
       world_negative_timeout).
Proof.
  apply (set_state_negative_timeout_dropped 42 ∅ world_negative_timeout);
    [reflexivity | reflexivity | simpl; lia].
Defined.

(** ** File names *)

Section FileNameFacts.

Implicit Types (s t stem ext e : string) (c : ascii).

Lemma has_char_app c s t : has_char c (s ++ t) = has_char c s || has_char c t.
Proof.
  induction s as [|c' s IH]; [reflexivity|].
  change (String c' s ++ t) with (String c' (s ++ t)).
  cbn [has_char]. by rewrite IH, orb_assoc.
Qed.

Lemma after_last_sep_no_sep s : has_char "/" s = false → Files.after_last_sep s = s.
Proof.
  destruct s as [|c s]; cbn [has_char Files.after_last_sep]; [reflexivity|].
  intros [Hc Hs]%orb_false_elim. rewrite Hs.
  rewrite Ascii.eqb_sym in Hc. by rewrite Hc.
Qed.

Lemma ext_go_no_dot od s : has_char "." s = false → Files.ext_go od s = "".
Proof.
  revert od. induction s as [|c s IH]; intros od;
    cbn [has_char Files.ext_go]; [reflexivity|].
  intros [Hc Hs]%orb_false_elim. rewrite Ascii.eqb_sym in Hc. rewrite Hc.
  by apply IH.
Qed.

Lemma ext_go_last_dot od stem e :
  has_char "." e = false →
  Files.ext_go od (stem ++ String "." e) =
    if od && all_dots stem then "" else String "." e.
Proof.
  intros He. revert od. induction stem as [|c stem IH]; intros od.
  - change ("" ++ String "." e) with (String "." e).
    cbn [Files.ext_go all_dots]. rewrite Ascii.eqb_refl, He. by destruct od.
  - change (String c stem ++ String "." e) with (String c (stem ++ String "." e)).
    cbn [Files.ext_go all_dots].
    destruct (Ascii.eqb c ".") eqn:Hc.
    + rewrite has_char_app. cbn [has_char]. rewrite Ascii.eqb_refl.
      rewrite orb_true_r. apply IH.
    + rewrite IH. by rewrite andb_false_r.
Qed.

Lemma lower_ascii_dot c : lower_ascii c = "."%char → c = "."%char.
Proof.
  destruct c as [[] [] [] [] [] [] [] []]; vm_compute; congruence.
Qed.

Lemma eqb_lower_ascii_dot c :
  Ascii.eqb "." (lower_ascii c) = Ascii.eqb "." c.
Proof. destruct c as [[] [] [] [] [] [] [] []]; reflexivity. Qed.

Lemma has_char_dot_lower s : has_char "." (lower s) = has_char "." s.
Proof.
  induction s as [|c s IH]; [reflexivity|].
  cbn [lower has_char]. by rewrite IH, eqb_lower_ascii_dot.
Qed.

Lemma all_dots_nonempty s : all_dots s = false → s ≠ "".
Proof. by destruct s. Qed.

(** Every supported extension is a dot followed by dot-free text. *)
Lemma supported_extensions_shape x :
  x ∈ Files.supported_extensions →
  ∃ e, x = String "." e ∧ has_char "." e = false.
Proof.
  unfold Files.supported_extensions. rewrite !elem_of_cons, elem_of_nil.
  intros H. repeat (destruct H as [->|H]; [by eexists|]). contradiction.
Qed.

(** X7. A name made of a stem that is not only dots, followed by a
    supported extension in any letter case, is accepted: the extension is
    taken from the last dot and compared in lower case. *)
Theorem supported_extension_accepted stem ext :
  has_char "/" (stem ++ ext) = false →
  all_dots stem = false →
  lower ext ∈ Files.supported_extensions →
  Files.get_file_extension (Some (stem ++ ext)) = lower ext ∧
  Files.is_supported_file_type (Some (stem ++ ext)) = true.
Proof.
  intros Hsep Hstem Hin.
  destruct (supported_extensions_shape _ Hin) as (e & Hx & He).
  destruct ext as [|c e']; [discriminate|]. simpl in Hx.
  injection Hx as Hc Hx. apply lower_ascii_dot in Hc. subst c.
  assert (He' : has_char "." e' = false) by (by rewrite <- has_char_dot_lower, Hx).
  assert (Hne : String.eqb (stem ++ String "." e') "" = false).
  { apply String.eqb_neq. destruct stem; [discriminate|]. discriminate. }
  assert (Hext : Files.get_file_extension (Some (stem ++ String "." e')) =
                 lower (String "." e')).
  { unfold Files.get_file_extension, Files.splitext_ext. rewrite Hne.
    rewrite (after_last_sep_no_sep _ Hsep), (ext_go_last_dot _ _ _ He').
    by rewrite Hstem. }
  split; [exact Hext|].
  unfold Files.is_supported_file_type. rewrite Hne, Hext.
  by apply bool_decide_eq_true.
Qed.

(** X8. A missing or empty name, a name without a dot, and a name that
    is nothing but an extension (a dot file such as [.pdf]) are all
    refused: none of them has an extension. *)
Theorem names_without_extension_rejected e :
  has_char "." e = false →
  has_char "/" e = false →
  Files.is_supported_file_type None = false ∧
  Files.is_supported_file_type (Some "") = false ∧
  Files.is_supported_file_type (Some e) = false ∧
  Files.is_supported_file_type (Some (String "." e)) = false.
Proof.
  intros Hdot Hsep. split; [reflexivity|]. split; [reflexivity|].
  assert (Hnone : bool_decide ("" ∈ Files.supported_extensions) = false)
    by (by vm_compute).
  split.
  - unfold Files.is_supported_file_type, Files.get_file_extension,
      Files.splitext_ext.
    destruct (String.eqb e ""); [reflexivity|].
    by rewrite (after_last_sep_no_sep _ Hsep), (ext_go_no_dot _ _ Hdot).
  - unfold Files.is_supported_file_type, Files.get_file_extension,
      Files.splitext_ext. simpl String.eqb.
    rewrite after_last_sep_no_sep by (simpl; by rewrite Hsep).
    change (String "." e) with ("" ++ String "." e).
    by rewrite (ext_go_last_dot true "" e Hdot).
Qed.

End FileNameFacts.

Lemma supported_extension_accepted_witness :
  Files.get_file_extension (Some "Quarterly.Report.PDF") = ".pdf" ∧
  Files.is_supported_file_type (Some "Quarterly.Report.PDF") = true.
Proof.
  apply (supported_extension_accepted "Quarterly.Report" ".PDF");
    [reflexivity | reflexivity | by vm_compute; set_solver].
Defined.

Lemma names_without_extension_rejected_witness :
  Files.is_supported_file_type (Some "README") = false ∧
  Files.is_supported_file_type (Some ".pdf") = false.
Proof.
  destruct (names_without_extension_rejected "README" eq_refl eq_refl)
    as (_ & _ & Hplain & _).
  destruct (names_without_extension_rejected "pdf" eq_refl eq_refl)
    as (_ & _ & _ & Hdot).
  by split.
Defined.

(** ** File uploads *)

Section UploadFacts.

Implicit Types (w : World) (update : Update) (context : Context).

(** X9. A file sent outside the upload flow is answered with the hint
    to use [/upload] and nothing else happens: no backend request is made
    and whatever flow the user is in stays as it is. *)
Theorem file_outside_upload_flow update context m w flow w1 :
  message update = Some m →
  denied context (effective_user_id update) = false →
  ConversationState.get_flow (effective_user_id update) w = (Ret flow, w1) →
  flow ≠ JStr "upload_file" →
  Files.handle_file_upload update context w =
    (Ret tt,
     set_trace (trace w1 ++
       [ReplyText (effective_chat_id update) MsgUseUploadFirst])%list w1) ∧
  redis_data w1 = redis_data w.
Proof.
  intros Hm Hd Hflow Hne.
  destruct (get_flow_returns _ _ _ _ Hflow) as (_ & (_ & _ & _ & Hdat & _) & _).
  split; [|exact Hdat].
  unfold Files.handle_file_upload, require_auth.
  unfold denied in Hd. rewrite Hd.
  unfold Files.handle_file_upload_body. unfold bind at 1. rewrite Hflow.
  rewrite (is_JStr_false _ _ Hne). simpl.
  unfold reply_text. by rewrite Hm.
Qed.

(** An integer of at most 53 bits is its own float. *)
Lemma round53_small (n : Z) : Z.abs n < 2 ^ 53 → Files.round53 n = n.
Proof.
  intros Hn. unfold Files.round53.
  assert (He : Z.log2 (Z.abs n) - 52 <= 0).
  { destruct (Z.eq_dec (Z.abs n) 0) as [->|Hnz]; [simpl; lia|].
    assert (Z.log2 (Z.abs n) < 53); [|lia].
    apply Z.log2_lt_pow2; lia. }
  apply Z.leb_le in He. by rewrite He.
Qed.

(** X10. In the upload flow, a file larger than the configured limit is
    refused with the size message before anything is downloaded or sent
    to the backend; the handler returns early, so the user stays in the
    upload flow.  The size is one that a float holds exactly, as every
    size below [2^53] bytes is: the check compares the float quotient
    [file_size / (1024 * 1024)] with the limit. *)
Theorem oversized_file_rejected update context m f n w w1 :
  message update = Some m →
  attachment m = Some f →
  file_size f = Some n →
  denied context (effective_user_id update) = false →
  ConversationState.get_flow (effective_user_id update) w =
    (Ret (JStr "upload_file"), w1) →
  Z.abs n < 2 ^ 53 →
  max_file_size_mb (settings w) * (1024 * 1024) < n →
  Files.handle_file_upload update context w =
    (Ret tt,
     set_trace (trace w1 ++
       [ReplyText (effective_chat_id update)
          (MsgFileTooLarge (max_file_size_mb (settings w)) n)])%list w1) ∧
  redis_data w1 = redis_data w.
Proof.
  intros Hm Hatt Hsize Hd Hflow Hfloat Hbig.
  destruct (get_flow_returns _ _ _ _ Hflow) as (_ & (Hs & _ & _ & Hdat & _) & _).
  split; [|exact Hdat].
  unfold Files.handle_file_upload, require_auth.
  unfold denied in Hd. rewrite Hd.
  unfold Files.handle_file_upload_body. unfold bind at 1. rewrite Hflow.
  rewrite (proj2 (is_JStr_true "upload_file" _) eq_refl).
  cbn [negb]. rewrite Hm, Hatt.
  unfold bind at 1, get_world at 1. cbv beta iota zeta.
  assert (Hlarge : Files.too_large (settings w1) f = true).
  { unfold Files.too_large. rewrite Hsize, Hs.
    destruct (Z.eqb_spec n 0) as [->|_].
    - apply Z.ltb_lt. lia.
    - rewrite (round53_small n Hfloat). by apply Z.ltb_lt. }
  rewrite Hlarge, Hsize, Hs. simpl.
  unfold reply_text. by rewrite Hm.
Qed.

(** X11. In the upload flow, a document whose name has no supported
    extension is refused with the extension message before anything is
    sent to the backend, and the user stays in the upload flow. *)
Theorem unsupported_document_rejected update context m f w w1 :
  message update = Some m →
  attachment m = Some f →
  file_kind f = Document →
  denied context (effective_user_id update) = false →
  ConversationState.get_flow (effective_user_id update) w =
    (Ret (JStr "upload_file"), w1) →
  Files.too_large (settings w) f = false →
  Files.is_supported_file_type (file_name f) = false →
  Files.handle_file_upload update context w =
    (Ret tt,
     set_trace (trace w1 ++
       [ReplyText (effective_chat_id update)
          (MsgUnsupportedExtension (default "None" (file_name f)))])%list w1) ∧
  redis_data w1 = redis_data w.
Proof.
  intros Hm Hatt Hkind Hd Hflow Hsmall Hext.
  destruct (get_flow_returns _ _ _ _ Hflow) as (_ & (Hs & _ & _ & Hdat & _) & _).
  split; [|exact Hdat].
  unfold Files.handle_file_upload, require_auth.
  unfold denied in Hd. rewrite Hd.
  unfold Files.handle_file_upload_body. unfold bind at 1. rewrite Hflow.
  rewrite (proj2 (is_JStr_true "upload_file" _) eq_refl).
  cbn [negb]. rewrite Hm, Hatt.
  unfold bind at 1, get_world at 1. cbv beta iota zeta.
  unfold Files.upload_filename. rewrite Hkind, Hs, Hsmall, Hext. simpl.
  unfold reply_text. by rewrite Hm.
Qed.

End UploadFacts.

Lemma file_outside_upload_flow_witness :
  Files.handle_file_upload (file_update 42) context_closed world_connecting =
    (Ret tt,
     set_trace (trace (snd (ConversationState.get_flow 42 world_connecting)) ++
                [ReplyText 42 MsgUseUploadFirst])%list
       (snd (ConversationState.get_flow 42 world_connecting))).
Proof.
  apply (file_outside_upload_flow (file_update 42) context_closed
           {| text := "";
              attachment :=
                Some {| file_kind := Document; file_name := Some "report.pdf";
                        file_size := Some 1000; file_id := "file-1" |};
              caption := None |}
           world_connecting (JStr "connecting")
           (snd (ConversationState.get_flow 42 world_connecting))
           eq_refl eq_refl ltac:(vm_compute; reflexivity)).
  discriminate.
Defined.

Lemma oversized_file_rejected_witness :
  Files.handle_file_upload (big_file_update 42) context_closed world_upload =
    (Ret tt,
     set_trace (trace (snd (ConversationState.get_flow 42 world_upload)) ++
                [ReplyText 42 (MsgFileTooLarge 50 (60 * 1024 * 1024))])%list
       (snd (ConversationState.get_flow 42 world_upload))).
Proof.
  apply (oversized_file_rejected (big_file_update 42) context_closed
           {| text := "";
              attachment :=
                Some {| file_kind := Document; file_name := Some "scan.pdf";
                        file_size := Some (60 * 1024 * 1024); file_id := "file-2" |};
              caption := None |}
           {| file_kind := Document; file_name := Some "scan.pdf";
              file_size := Some (60 * 1024 * 1024); file_id := "file-2" |}
           (60 * 1024 * 1024) world_upload
           (snd (ConversationState.get_flow 42 world_upload))
           eq_refl eq_refl eq_refl eq_refl ltac:(vm_compute; reflexivity)).
  - vm_compute. reflexivity.
  - vm_compute. reflexivity.
Defined.

Lemma unsupported_document_rejected_witness :
  Files.handle_file_upload (exe_file_update 42) context_closed world_upload =
    (Ret tt,
     set_trace (trace (snd (ConversationState.get_flow 42 world_upload)) ++
                [ReplyText 42 (MsgUnsupportedExtension "setup.exe")])%list
       (snd (ConversationState.get_flow 42 world_upload))).
Proof.
  apply (unsupported_document_rejected (exe_file_update 42) context_closed
           {| text := "";
              attachment :=
                Some {| file_kind := Document; file_name := Some "setup.exe";
                        file_size := Some 1000; file_id := "file-3" |};
              caption := None |}
           {| file_kind := Document; file_name := Some "setup.exe";
              file_size := Some 1000; file_id := "file-3" |}
           world_upload
           (snd (ConversationState.get_flow 42 world_upload))
           eq_refl eq_refl eq_refl eq_refl ltac:(vm_compute; reflexivity)
           eq_refl eq_refl).
Defined.

(** ** The allow-list under the admin surface *)

Section AllowListFacts.

Import Auth.

Implicit Types (a : AuthManager) (u : Z) (o : Op) (ops : list Op).

Lemma step_admins a o : admin_users (step a o) = admin_users a.
Proof.
  destruct o as [v|v]; simpl.
  - unfold add_user. case_bool_decide; reflexivity.
  - unfold remove_user. destruct (_ && _); reflexivity.
Qed.

Lemma step_keeps_admin a o u :
  u ∈ admin_users a → u ∈ allowed_users a → u ∈ allowed_users (step a o).
Proof.
  intros Hadm Hin. destruct o as [v|v]; simpl.
  - unfold add_user. case_bool_decide; simpl; set_solver.
  - unfold remove_user.
    destruct (bool_decide (v ∈ allowed_users a)); simpl; [|exact Hin].
    case_bool_decide; simpl; [|exact Hin].
    apply elem_of_difference. split; [exact Hin|].
    intros ->%elem_of_singleton. contradiction.
Qed.

(** X12. An admin who is on the allow-list stays on it: whatever users
    are added and removed afterwards, the admin set is the one the manager
    was built with and that admin is still allowed. *)
Theorem admin_on_allow_list_stays a ops u :
  u ∈ admin_users a → u ∈ allowed_users a →
  admin_users (run a ops) = admin_users a ∧
  u ∈ allowed_users (run a ops) ∧
  is_user_allowed (run a ops) u = true ∧
  is_user_admin (run a ops) u = true.
Proof.
  revert a. induction ops as [|o ops IH]; intros a Hadm Hin.
  - simpl. repeat split; try assumption.
    + unfold is_user_allowed. destruct (allow_all_users a); [reflexivity|].
      by apply bool_decide_eq_true.
    + by apply bool_decide_eq_true.
  - change (run a (o :: ops)) with (run (step a o) ops).
    destruct (IH (step a o)) as (Ha & Hrest).
    + by rewrite step_admins.
    + by apply step_keeps_admin.
    + split; [|exact Hrest]. by rewrite Ha, step_admins.
Qed.

(** X13. Adding a user who was not on the allow-list and removing the
    same user again gives back the manager there was before; if that user
    is an admin, the removal is refused and the user stays on the list. *)
Theorem add_user_then_remove_user a u :
  u ∉ allowed_users a →
  fst (add_user a u) = true ∧
  (u ∉ admin_users a → remove_user (snd (add_user a u)) u = (true, a)) ∧
  (u ∈ admin_users a →
     remove_user (snd (add_user a u)) u = (false, snd (add_user a u)) ∧
     u ∈ allowed_users (snd (add_user a u))).
Proof.
  intros Hout. unfold add_user. rewrite (bool_decide_eq_true_2 _ Hout). simpl.
  split; [reflexivity|]. split.
  - intros Hna. unfold remove_user; simpl.
    rewrite bool_decide_eq_true_2 by set_solver.
    rewrite (bool_decide_eq_true_2 _ Hna). simpl.
    destruct a as [secret allowed admins flag]; unfold with_allowed; simpl in *.
    do 2 f_equal. apply set_eq. intros x.
    rewrite elem_of_difference, elem_of_union, elem_of_singleton. split.
    + intros [[Hx|Hx] Hne]; [exact Hx | contradiction].
    + intros Hx. split; [by left|]. intros ->. contradiction.
  - intros Hadm. split; [|apply elem_of_union_r; by apply elem_of_singleton].
    unfold remove_user; simpl.
    rewrite (bool_decide_eq_false_2 (u ∉ admin_users a)) by (intros Hn; exact (Hn Hadm)).
    by rewrite andb_false_r.
Qed.

End AllowListFacts.

Lemma admin_on_allow_list_stays_witness :
  1 ∈ Auth.allowed_users
        (Auth.run (Auth.init settings_closed)
           [Auth.RemoveUser 1; Auth.RemoveUser 42; Auth.AddUser 7; Auth.RemoveUser 1]) ∧
  Auth.is_user_allowed
    (Auth.run (Auth.init settings_closed)
       [Auth.RemoveUser 1; Auth.RemoveUser 42; Auth.AddUser 7; Auth.RemoveUser 1]) 1 = true.
Proof.
  destruct (admin_on_allow_list_stays (Auth.init settings_closed)
              [Auth.RemoveUser 1; Auth.RemoveUser 42; Auth.AddUser 7; Auth.RemoveUser 1] 1)
    as (_ & Hin & Hallowed & _); [by vm_compute; set_solver | by vm_compute; set_solver |].
  by split.
Defined.

Lemma add_user_then_remove_user_witness :
  Auth.remove_user (snd (Auth.add_user (Auth.init settings_closed) 7)) 7 =
    (true, Auth.init settings_closed).
Proof.
  apply (add_user_then_remove_user (Auth.init settings_closed) 7);
    vm_compute; set_solver.
Defined.

(** ** The admin guard *)

Section AdminGuardFacts.

Implicit Types (func : Handler) (update : Update) (context : Context) (w : World).

(** X14. The admin guard looks at the admin set only.  An admin passes
    it without being on the allow-list, where the plain guard turns the
    same user away; a user who is allowed but no admin is turned away by
    it with the admin message and a warning, and the wrapped handler does
    not run. *)
Theorem admin_guard_independent_of_allow_list func update context am w m :
  auth_manager context = Some am →
  message update = Some m →
  (effective_user_id update ∈ Auth.admin_users am →
     require_admin func update context w = func update context w ∧
     (Auth.allow_all_users am = false →
      effective_user_id update ∉ Auth.allowed_users am →
      require_auth func update context w =
        (Ret tt,
         set_trace (trace w ++
           [ReplyText (effective_chat_id update)
              (MsgUnauthorized (effective_user_id update));
            Log Warning "Unauthorized access attempt"
              [("user_id", JNum (effective_user_id update))]])%list w))) ∧
  (effective_user_id update ∉ Auth.admin_users am →
     require_admin func update context w =
       (Ret tt,
        set_trace (trace w ++
          [ReplyText (effective_chat_id update) MsgAdminRequired;
           Log Warning "Non-admin attempted admin command"
             [("user_id", JNum (effective_user_id update))]])%list w) ∧
     (Auth.is_user_allowed am (effective_user_id update) = true →
      require_auth func update context w = func update context w)).
Proof.
  intros Ham Hm. split.
  - intros Hadm. split.
    + unfold require_admin, Auth.is_user_admin. rewrite Ham.
      by rewrite (bool_decide_eq_true_2 _ Hadm).
    + intros Hflag Hout. unfold require_auth, Auth.is_user_allowed.
      rewrite Ham, Hflag, (bool_decide_eq_false_2 _ Hout). simpl.
      unfold reply_text. rewrite Hm. run_m. by rewrite <- app_assoc.
  - intros Hna. split.
    + unfold require_admin, Auth.is_user_admin. rewrite Ham.
      rewrite (bool_decide_eq_false_2 _ Hna). simpl.
      unfold reply_text. rewrite Hm. run_m. by rewrite <- app_assoc.
    + intros Hal. unfold require_auth. by rewrite Ham, Hal.
Qed.

End AdminGuardFacts.

Lemma admin_guard_independent_of_allow_list_witness :
  require_admin probe_handler (text_update 1 "/admin") context_admin_only world_fresh =
    probe_handler (text_update 1 "/admin") context_admin_only world_fresh ∧
  require_auth probe_handler (text_update 1 "/admin") context_admin_only world_fresh =
    (Ret tt,
     set_trace
       [ReplyText 1 (MsgUnauthorized 1);
        Log Warning "Unauthorized access attempt" [("user_id", JNum 1)]]
       world_fresh) ∧
  require_admin probe_handler (text_update 42 "/admin") context_admin_only world_fresh =
    (Ret tt,
     set_trace
       [ReplyText 42 MsgAdminRequired;
        Log Warning "Non-admin attempted admin command" [("user_id", JNum 42)]]
       world_fresh).
Proof.
  pose proof (admin_guard_independent_of_allow_list probe_handler
                (text_update 1 "/admin") context_admin_only
                (Auth.init settings_admin_only) world_fresh
                {| text := "/admin"; attachment := None; caption := None |}
                eq_refl eq_refl) as [Hadmin _].
  pose proof (admin_guard_independent_of_allow_list probe_handler
                (text_update 42 "/admin") context_admin_only
                (Auth.init settings_admin_only) world_fresh
                {| text := "/admin"; attachment := None; caption := None |}
                eq_refl eq_refl) as [_ Hother].
  destruct Hadmin as [Hrun Hrej]; [by vm_compute; set_solver|].
  destruct Hother as [Hno _]; [by vm_compute; set_solver|].
  split; [exact Hrun|]. split; [|exact Hno].
  apply Hrej; [reflexivity | by vm_compute; set_solver].
Defined.

(** ** Long messages *)

Section SplitFacts.

Implicit Types (s text line current : list N) (max_length : Z).

Lemma lstrip_length s : (length (Commands.lstrip s) <= length s)%nat.
Proof.
  induction s as [|c s IH]; simpl; [lia|].
  destruct (Commands.is_whitespace c); simpl; lia.
Qed.

(** Stripping never makes a text longer. *)
Lemma strip_length s : (length (Commands.strip s) <= length s)%nat.
Proof.
  unfold Commands.strip. rewrite length_reverse.
  etrans; [apply lstrip_length|]. rewrite length_reverse. apply lstrip_length.
Qed.

Lemma split_nonempty sep s : Commands.split sep s ≠ [].
Proof.
  destruct s as [|c s]; simpl; [discriminate|].
  destruct (c =? sep)%N; [discriminate|].
  destruct (Commands.split sep s); discriminate.
Qed.

(** The loop keeps every closed chunk and the chunk being filled within
    the limit, as long as every line fits with its line break. *)
Lemma split_step_bounded max_length lines :
  ∀ chunks current,
    Forall (λ line, Z.of_nat (length line) + 1 ≤ max_length) lines →
    Forall (λ chunk, Z.of_nat (length chunk) ≤ max_length) chunks →
    Z.of_nat (length current) ≤ max_length →
    Forall (λ chunk, Z.of_nat (length chunk) ≤ max_length)
      (fst (fold_left (Commands.split_step max_length) lines (chunks, current))) ∧
    Z.of_nat (length
                (snd (fold_left (Commands.split_step max_length) lines
                        (chunks, current)))) ≤ max_length.
Proof.
  induction lines as [|line lines IH]; intros chunks current Hl Hc Hcur;
    cbn [fold_left]; [by split|].
  inversion_clear Hl as [|? ? Hline Hl'].
  destruct (Commands.split_step max_length (chunks, current) line)
    as [chunks' current'] eqn:Hstep.
  apply IH; [exact Hl'| |]; unfold Commands.split_step in Hstep;
    destruct (Z.leb_spec
                (Z.of_nat (length current) + Z.of_nat (length line) + 1)
                max_length) as [Hfit|Hover];
    injection Hstep as <- <-.
  - exact Hc.
  - destruct current as [|c current]; [exact Hc|].
    apply Forall_app. split; [exact Hc|]. apply Forall_singleton.
    pose proof (strip_length (c :: current)). lia.
  - rewrite !length_app. simpl. lia.
  - rewrite length_app. simpl. lia.
Qed.

(** X15. When every line of the text fits the limit together with its
    line break, every chunk that [split_long_message] returns is within
    the limit, counted in characters as [len] counts them. *)
Theorem split_long_message_chunks_bounded text max_length :
  Forall (λ line, Z.of_nat (length line) + 1 ≤ max_length)
    (Commands.split Commands.newline text) →
  Forall (λ chunk, Z.of_nat (length chunk) ≤ max_length)
    (Commands.split_long_message text max_length).
Proof.
  intros Hl. unfold Commands.split_long_message.
  destruct (Z.leb_spec (Z.of_nat (length text)) max_length) as [Hshort|Hlong].
  - by apply Forall_singleton.
  - assert (H0 : Z.of_nat (length (@nil N)) ≤ max_length).
    { pose proof (split_nonempty Commands.newline text) as Hne.
      destruct (Commands.split Commands.newline text) as [|l ls]; [contradiction|].
      inversion_clear Hl as [|? ? Hline _]. simpl. lia. }
    destruct (split_step_bounded max_length _ [] [] Hl (Forall_nil_2 _) H0)
      as [Hc Hcur].
    destruct (fold_left _ _ _) as [chunks current]. simpl in Hc, Hcur.
    destruct current as [|c current]; [exact Hc|].
    apply Forall_app. split; [exact Hc|]. apply Forall_singleton.
    pose proof (strip_length (c :: current)). lia.
Qed.

End SplitFacts.

Lemma split_long_message_chunks_bounded_witness :
  Forall (λ chunk, Z.of_nat (length chunk) ≤ 10)
    (Commands.split_long_message text_three_lines 10).
Proof.
  apply (split_long_message_chunks_bounded text_three_lines 10).
  vm_compute. repeat constructor; discriminate.
Defined.

(** ** Button presses *)

Section CallbackFacts.

Implicit Types (p s data : string).

Lemma prefix_app p s : String.prefix p s = true → ∃ r, s = p ++ r.
Proof.
  revert s. induction p as [|c p IH]; intros s H; [by exists s|].
  destruct s as [|c' s]; simpl in H; [discriminate|].
  destruct (ascii_dec c c') as [->|_]; [|discriminate].
  destruct (IH s H) as [r ->]. by exists r.
Qed.

(** X16. The branch of [button_callback] for [handle_fetch_source_callback]
    is never taken: data that starts with [fetch_source_] starts with
    [fetch_] and is handed to [handle_fetch_callback] by the earlier test,
    and that function has no case for it and ends without doing
    anything. *)
Theorem fetch_source_buttons_fall_through data :
  Callbacks.button_target data ≠ Callbacks.handle_fetch_source_callback ∧
  (startswith "fetch_source_" data = true →
     Callbacks.button_target data = Callbacks.handle_fetch_callback ∧
     Callbacks.fetch_action data = Callbacks.no_action).
Proof.
  split.
  - unfold Callbacks.button_target.
    repeat match goal with
           | |- (if ?b then _ else _) ≠ _ => destruct b eqn:?; [try discriminate|]
           end; try discriminate.
    match goal with
    | H : startswith "fetch_source_" data = true |- _ =>
        apply prefix_app in H as [r ->]
    end.
    match goal with
    | H : startswith "fetch_" _ = false |- _ => vm_compute in H; discriminate
    end.
  - intros [r ->]%prefix_app. split; reflexivity.
Qed.

End CallbackFacts.

Lemma fetch_source_buttons_fall_through_witness :
  Callbacks.button_target "fetch_source_drive" = Callbacks.handle_fetch_callback ∧
  Callbacks.fetch_action "fetch_source_drive" = Callbacks.no_action.
Proof.
  apply (fetch_source_buttons_fall_through "fetch_source_drive"). reflexivity.
Defined.

(** ** Searches and uploads, whatever the backend answers *)

Section RunFacts.

Implicit Types (w : World) (update : Update) (context : Context) (u : Z).

Lemma quiet_ret {A} (a : A) : quiet (ret a).
Proof. intros w. exists a, w. by repeat split. Qed.

Lemma quiet_get_world : quiet get_world.
Proof. intros w. exists w, w. by repeat split. Qed.

Lemma quiet_bind {A B} (m : M A) (k : A → M B) :
  quiet m → (∀ a, quiet (k a)) → quiet (bind m k).
Proof.
  intros Hm Hk w. destruct (Hm w) as (a & w1 & Ha & Hs1 & Hc1).
  destruct (Hk a w1) as (b & w2 & Hb & Hs2 & Hc2).
  exists b, w2. unfold bind. rewrite Ha. split; [exact Hb|].
  split; [by eapply same_store_trans | congruence].
Qed.

Lemma quiet_try_except {A} (m : M A) h : quiet m → quiet (try_except m h).
Proof.
  intros Hm w. destruct (Hm w) as (a & w1 & Ha & Hs).
  exists a, w1. unfold try_except. by rewrite Ha.
Qed.

Lemma quiet_emit e : quiet (emit e).
Proof. intros w. eexists _, _. split; [reflexivity|]. by repeat split. Qed.

Lemma quiet_reply_text update t m :
  message update = Some m → quiet (reply_text update t).
Proof. intros Hm. unfold reply_text. rewrite Hm. apply quiet_emit. Qed.

Lemma quiet_make_request method endpoint user_id data :
  quiet (Backend._make_request method endpoint user_id data).
Proof.
  intros w. destruct (make_request_run method endpoint user_id data w)
    as (logs & Hrun & _).
  eexists _, _. split; [exact Hrun|]. by repeat split.
Qed.

Lemma quiet_search user_id query top_k cites :
  quiet (Backend.search user_id query top_k cites).
Proof.
  unfold Backend.search. apply quiet_bind; [apply quiet_get_world|].
  intros w. apply quiet_make_request.
Qed.

Lemma quiet_upload_file user_id file_data filename metadata :
  quiet (Backend.upload_file user_id file_data filename metadata).
Proof.
  intros w. unfold Backend.upload_file.
  match goal with
  | |- context [Backend._make_request_files ?f ?m ?e ?u ?d w] =>
      destruct (make_request_files_run f m e u d w) as (logs & Hrun & _)
  end.
  eexists _, _. split; [exact Hrun|]. by repeat split.
Qed.

Lemma quiet_runs_connected {A} (m : M A) : quiet m → runs_connected m.
Proof.
  intros Hq w Hc. destruct (Hq w) as (a & w' & Ha & (Hs & Hn & Hu & _) & Hc').
  exists a, w'. repeat split; congruence.
Qed.

Lemma runs_bind {A B} (m : M A) (k : A → M B) :
  runs_connected m → (∀ a, runs_connected (k a)) → runs_connected (bind m k).
Proof.
  intros Hm Hk w Hc. destruct (Hm w Hc) as (a & w1 & Ha & Hc1 & Hu1 & Hs1 & Hn1).
  destruct (Hk a w1 Hc1) as (b & w2 & Hb & Hc2 & Hu2 & Hs2 & Hn2).
  exists b, w2. unfold bind. rewrite Ha. repeat split; congruence.
Qed.

Lemma runs_try_except {A} (m : M A) h :
  runs_connected m → runs_connected (try_except m h).
Proof.
  intros Hm w Hc. destruct (Hm w Hc) as (a & w1 & Ha & Hrest).
  exists a, w1. unfold try_except. by rewrite Ha.
Qed.

(** With the client connected, the store operations return whether the
    server answers or not. *)
Lemma runs_storage_get key : runs_connected (Storage.get key).
Proof.
  intros w Hc. unfold Storage.get, bind. rewrite (connect_connected w Hc).
  unfold try_except, bind, Redis.get, Redis.command. cbv beta.
  destruct (redis_up w) eqn:Hup.
  - destruct (redis_data w !! key) as [entry|]; [destruct (Redis.live _ _)|];
      eexists _, _; by repeat split.
  - eexists _, _. split; [reflexivity|]. by repeat split.
Qed.

Lemma runs_storage_set key value ttl : runs_connected (Storage.set key value ttl).
Proof.
  intros w Hc. unfold Storage.set, bind. rewrite (connect_connected w Hc).
  unfold try_except, Redis.setex, Redis.set, Redis.command.
  destruct ttl as [t|]; [destruct (negb (t =? 0)); [destruct (t <=? 0) eqn:Ht|]|];
    cbv beta; destruct (redis_up w) eqn:Hup; rewrite ?Ht;
    eexists _, _; (split; [reflexivity|]); by repeat split.
Qed.

Lemma runs_update_state u upd :
  runs_connected (ConversationState.update_state u upd).
Proof.
  unfold ConversationState.update_state, ConversationState.get_state,
    ConversationState.set_state.
  apply runs_bind.
  - apply runs_bind; [apply runs_storage_get|]. intros r.
    apply quiet_runs_connected, quiet_ret.
  - intros cur. apply runs_bind; [apply quiet_runs_connected, quiet_get_world|].
    intros w. apply runs_storage_set.
Qed.

(** What is read once the user's key is gone. *)
Lemma no_flow_without_key u w :
  redis_up w = true →
  redis_data w !! ConversationState._get_key u = None →
  fst (ConversationState.get_flow u w) = Ret JNull.
Proof.
  intros Hup Hnone. destruct (get_state_up u w Hup) as (w' & Hg & _).
  apply (f_equal fst) in Hg. simpl in Hg.
  destruct (get_flow_of_state u w _ Hg) as [-> _].
  unfold stored. by rewrite Hnone.
Qed.

Lemma falsy_flow_is_no_flow flow :
  truthy flow = false →
  is_JStr "refine_search" flow = false ∧ is_JStr "upload_file" flow = false.
Proof.
  destruct flow as [| | |s| |]; simpl; try (by split).
  destruct (String.eqb_spec s "") as [->|]; [by split|discriminate].
Qed.

(** The search behind a free-text message, from its progress message on. *)
Lemma quiet_natural_language_search update context query m :
  message update = Some m →
  quiet (Messages.handle_natural_language_search update context query).
Proof.
  intros Hm. unfold Messages.handle_natural_language_search.
  destruct (_ <? _)%nat; [by eapply quiet_reply_text|].
  case_bool_decide; [by eapply quiet_reply_text|].
  apply quiet_bind; [by eapply quiet_reply_text|]. intros _.
  apply quiet_bind; [apply quiet_emit|]. intros _.
  apply quiet_try_except.
  apply quiet_bind; [apply quiet_search|]. intros result.
  apply quiet_bind; [apply quiet_emit|]. intros _.
  destruct (_ || _); [by eapply quiet_reply_text|].
  apply quiet_bind; [by eapply quiet_reply_text|]. intros _.
  apply quiet_bind; [by eapply quiet_reply_text|]. intros _.
  apply quiet_emit.
Qed.

(** X17. A free-text message from an allowed user who is in no flow is
    not searched when it is too short or a greeting: shorter than three
    characters after stripping, it gets the too-short hint, and this test
    comes first, so the listed phrases [hi], [ok] and [no] get that hint
    too; a listed phrase of three characters or more gets the greeting.
    In both cases that reply is all that happens. *)
Theorem short_or_greeting_text_not_searched update context m w flow w1 :
  message update = Some m →
  startswith "/" (text m) = false →
  denied context (effective_user_id update) = false →
  ConversationState.get_flow (effective_user_id update) w = (Ret flow, w1) →
  truthy flow = false →
  same_store w w1 ∧
  ((String.length (strip (text m)) < 3)%nat →
     Messages.handle_text_message update context w =
       (Ret tt,
        set_trace (trace w1 ++
          [ReplyText (effective_chat_id update) MsgQueryTooShort])%list w1)) ∧
  ((3 <= String.length (strip (text m)))%nat →
   strip (lower (text m)) ∈ Messages.non_search_phrases →
     Messages.handle_text_message update context w =
       (Ret tt,
        set_trace (trace w1 ++
          [ReplyText (effective_chat_id update) MsgHello])%list w1)).
Proof.
  intros Hm Hslash Hd Hflow Hfalsy.
  destruct (get_flow_returns _ _ _ _ Hflow) as (_ & Hsame & _).
  destruct (falsy_flow_is_no_flow flow Hfalsy) as [Hr Hu].
  assert (Hbody : Messages.handle_text_message update context w =
            Messages.handle_natural_language_search update context (text m) w1).
  { unfold Messages.handle_text_message, require_auth.
    unfold denied in Hd. rewrite Hd.
    unfold Messages.handle_text_message_body, Messages.message_text.
    rewrite Hm. unfold bind at 1. unfold ret at 1. rewrite Hslash.
    unfold bind at 1. rewrite Hflow, Hr, Hu, Hfalsy. reflexivity. }
  split; [exact Hsame|]. rewrite Hbody.
  unfold Messages.handle_natural_language_search, reply_text. rewrite Hm.
  split.
  - intros Hshort. apply Nat.ltb_lt in Hshort. by rewrite Hshort.
  - intros Hlong Hin. apply Nat.ltb_ge in Hlong. rewrite Hlong.
    by rewrite (bool_decide_eq_true_2 _ Hin).
Qed.

(** X18. A search is one request to [/api/search] followed by log
    records only; it returns the dict of the outcome, never an exception,
    and changes nothing but the trace.  The request asks for [top_k]
    results, and for the configured limit when [top_k] is missing or 0. *)
Theorem search_sends_one_request user_id query top_k cites w :
  ∃ data logs,
    Backend.search user_id query top_k cites w =
      (Ret (outcome_dict (spec_outcome (backend w "POST" "/api/search" user_id))),
       set_trace
         (trace w ++ BackendRequest "POST" "/api/search" user_id data :: logs)%list
         w) ∧
    forallb is_log logs = true ∧
    data !! "query" = Some (JStr query) ∧
    data !! "top_k" =
      Some (JNum (match top_k with
                  | Some k => if k =? 0 then search_results_limit (settings w) else k
                  | None => search_results_limit (settings w)
                  end)).
Proof.
  unfold Backend.search, bind, get_world.
  match goal with
  | |- context [Backend._make_request ?m ?e ?u ?d w] =>
      destruct (make_request_run m e u d w) as (logs & Hrun & Hlogs);
      exists d, logs
  end.
  split; [exact Hrun|]. split; [exact Hlogs|]. split; reflexivity.
Qed.

(** X19. The search behind a free-text message never touches the
    conversation state: whatever the backend answers, it returns, and the
    store, the clock, the settings and the connection are as before. *)
Theorem free_text_search_leaves_state update context query m w :
  message update = Some m →
  ∃ w',
    Messages.handle_natural_language_search update context query w = (Ret tt, w') ∧
    same_store w w' ∧ connected w' = connected w.
Proof.
  intros Hm.
  destruct (quiet_natural_language_search update context query m Hm w)
    as ([] & w' & Hrun & Hrest).
  by exists w'.
Qed.

(** X20. A refined search is one-shot.  A text message from a user in
    the [refine_search] flow clears the state before the search runs, so
    whatever the backend answers, the handler returns and the user is in
    no flow afterwards. *)
Theorem refined_search_leaves_flow update context m w w1 :
  message update = Some m →
  startswith "/" (text m) = false →
  denied context (effective_user_id update) = false →
  ConversationState.get_flow (effective_user_id update) w =
    (Ret (JStr "refine_search"), w1) →
  ∃ w2,
    Messages.handle_text_message update context w = (Ret tt, w2) ∧
    (redis_up w = true →
       fst (ConversationState.get_flow (effective_user_id update) w2) = Ret JNull).
Proof.
  intros Hm Hslash Hd Hflow.
  destruct (get_flow_returns _ _ _ _ Hflow) as (Hc1 & (_ & _ & Hu1 & _) & _).
  assert (Hbody : Messages.handle_text_message update context w =
            Messages.handle_refined_search update context (text m) w1).
  { unfold Messages.handle_text_message, require_auth.
    unfold denied in Hd. rewrite Hd.
    unfold Messages.handle_text_message_body, Messages.message_text.
    rewrite Hm. unfold bind at 1. unfold ret at 1. rewrite Hslash.
    unfold bind at 1. rewrite Hflow. reflexivity. }
  rewrite Hbody. unfold Messages.handle_refined_search.
  match goal with
  | |- context [bind (ConversationState.clear_state _) ?k] =>
      assert (Hrest : quiet (k tt))
  end.
  { apply quiet_bind; [by eapply quiet_reply_text|]. intros _.
    apply quiet_try_except.
    apply quiet_bind; [apply quiet_search|]. intros result.
    apply quiet_bind; [apply quiet_emit|]. intros _.
    destruct (_ && _); by eapply quiet_reply_text. }
  unfold bind at 1.
  destruct (redis_up w) eqn:Hup.
  - rewrite clear_state_run by congruence.
    match goal with
    | |- context [set_redis_data ?d w1] =>
        destruct (Hrest (set_redis_data d w1))
          as ([] & w2 & Hrun & (_ & _ & Hu2 & Hd2 & _) & _)
    end.
    exists w2. split; [exact Hrun|]. intros _.
    apply no_flow_without_key.
    + rewrite Hu2. simpl. congruence.
    + rewrite Hd2. simpl. apply lookup_delete_eq.
  - destruct (clear_state_connected (effective_user_id update) w1 Hc1)
      as (w1' & Hclear & _).
    rewrite Hclear.
    destruct (Hrest w1') as ([] & w2 & Hrun & _).
    exists w2. split; [exact Hrun|]. discriminate.
Qed.

(** X21. An upload attempt always ends the upload flow.  Once a file
    has passed the size and extension checks, the handler returns
    whatever the backend answers, and its [finally] has deleted the
    user's state: the user is in no flow, and the job identifiers written
    during the call are gone with it. *)
Theorem upload_attempt_always_leaves_flow update context m f w w1 :
  message update = Some m →
  attachment m = Some f →
  denied context (effective_user_id update) = false →
  ConversationState.get_flow (effective_user_id update) w =
    (Ret (JStr "upload_file"), w1) →
  Files.too_large (settings w) f = false →
  Files.is_supported_file_type (Files.upload_filename (now w) f) = true →
  ∃ w2,
    Files.handle_file_upload update context w = (Ret tt, w2) ∧
    (redis_up w = true →
       redis_data w2 !! ConversationState._get_key (effective_user_id update) = None ∧
       fst (ConversationState.get_flow (effective_user_id update) w2) = Ret JNull).
Proof.
  intros Hm Hatt Hd Hflow Hsmall Hsupp.
  destruct (get_flow_returns _ _ _ _ Hflow) as (Hc1 & (Hs & Hn & Hu1 & _) & _).
  unfold Files.handle_file_upload, require_auth.
  unfold denied in Hd. rewrite Hd.
  unfold Files.handle_file_upload_body. unfold bind at 1. rewrite Hflow.
  rewrite (proj2 (is_JStr_true "upload_file" _) eq_refl).
  cbn [negb]. rewrite Hm, Hatt.
  unfold bind at 1, get_world at 1. cbv beta iota zeta.
  rewrite Hs, Hn, Hsmall, Hsupp. cbn [negb].
  match goal with
  | |- context [try_finally ?body _ w1] => assert (Hbody : runs_connected body)
  end.
  { apply runs_try_except.
    apply runs_bind; [apply quiet_runs_connected; by eapply quiet_reply_text|].
    intros _.
    apply runs_bind; [apply quiet_runs_connected, quiet_emit|]. intros _.
    apply runs_bind; [apply quiet_runs_connected, quiet_emit|]. intros _.
    apply runs_bind; [apply quiet_runs_connected, quiet_upload_file|].
    intros result.
    destruct (_ && _).
    - apply runs_bind; [apply quiet_runs_connected, quiet_emit|]. intros _.
      apply runs_bind.
      + destruct (truthy _);
          [apply runs_update_state | apply quiet_runs_connected, quiet_ret].
      + intros _. apply quiet_runs_connected, quiet_emit.
    - apply quiet_runs_connected, quiet_emit. }
  destruct (Hbody w1 Hc1) as ([] & w2 & Hrun & Hc2 & Hu2 & _).
  unfold try_finally. rewrite Hrun.
  destruct (redis_up w) eqn:Hup.
  - rewrite clear_state_run by congruence.
    eexists. split; [reflexivity|]. intros _.
    assert (Hgone : redis_data
              (set_redis_data
                 (delete (ConversationState._get_key (effective_user_id update))
                    (redis_data w2)) w2)
              !! ConversationState._get_key (effective_user_id update) = None)
      by (simpl; apply lookup_delete_eq).
    split; [exact Hgone|].
    apply no_flow_without_key; [simpl; congruence | exact Hgone].
  - destruct (clear_state_connected (effective_user_id update) w2 Hc2)
      as (w3 & Hclear & _).
    rewrite Hclear. exists w3. split; [reflexivity|]. discriminate.
Qed.

End RunFacts.

Lemma short_or_greeting_text_not_searched_witness :
  Messages.handle_text_message (text_update 42 "hi") context_closed world_fresh =
    (Ret tt,
     set_trace (trace (snd (ConversationState.get_flow 42 world_fresh)) ++
                [ReplyText 42 MsgQueryTooShort])%list
       (snd (ConversationState.get_flow 42 world_fresh))) ∧
  Messages.handle_text_message (text_update 42 " Thank You ") context_closed
      world_fresh =
    (Ret tt,
     set_trace (trace (snd (ConversationState.get_flow 42 world_fresh)) ++
                [ReplyText 42 MsgHello])%list
       (snd (ConversationState.get_flow 42 world_fresh))).
Proof.
  split.
  - apply (proj1 (proj2 (short_or_greeting_text_not_searched
             (text_update 42 "hi") context_closed
             {| text := "hi"; attachment := None; caption := None |}
             world_fresh JNull (snd (ConversationState.get_flow 42 world_fresh))
             eq_refl eq_refl eq_refl ltac:(vm_compute; reflexivity) eq_refl))).
    vm_compute. lia.
  - apply (proj2 (proj2 (short_or_greeting_text_not_searched
             (text_update 42 " Thank You ") context_closed
             {| text := " Thank You "; attachment := None; caption := None |}
             world_fresh JNull (snd (ConversationState.get_flow 42 world_fresh))
             eq_refl eq_refl eq_refl ltac:(vm_compute; reflexivity) eq_refl))).
    + vm_compute. lia.
    + apply (bool_decide_unpack _). vm_compute. exact I.
Defined.

Lemma free_text_search_leaves_state_witness :
  ∃ w',
    Messages.handle_natural_language_search (text_update 42 "quarterly report")
      context_closed "quarterly report" world_500 = (Ret tt, w') ∧
    same_store world_500 w' ∧ connected w' = connected world_500.
Proof.
  apply (free_text_search_leaves_state (text_update 42 "quarterly report")
           context_closed "quarterly report"
           {| text := "quarterly report"; attachment := None; caption := None |}
           world_500).
  reflexivity.
Defined.

Lemma refined_search_leaves_flow_witness :
  ∃ w2,
    Messages.handle_text_message (text_update 42 "revenue 2023") context_closed
      world_refine = (Ret tt, w2) ∧
    fst (ConversationState.get_flow 42 w2) = Ret JNull.
Proof.
  destruct (refined_search_leaves_flow (text_update 42 "revenue 2023") context_closed
              {| text := "revenue 2023"; attachment := None; caption := None |}
              world_refine (snd (ConversationState.get_flow 42 world_refine))
              eq_refl eq_refl eq_refl ltac:(vm_compute; reflexivity))
    as (w2 & Hrun & Hflow).
  exists w2. split; [exact Hrun|]. apply Hflow. reflexivity.
Defined.

Lemma upload_attempt_always_leaves_flow_witness :
  ∃ w2,
    Files.handle_file_upload (file_update 42) context_closed world_upload_500 =
      (Ret tt, w2) ∧
    fst (ConversationState.get_flow 42 w2) = Ret JNull.
Proof.
  destruct (upload_attempt_always_leaves_flow (file_update 42) context_closed
              {| text := "";
                 attachment :=
                   Some {| file_kind := Document; file_name := Some "report.pdf";
                           file_size := Some 1000; file_id := "file-1" |};
                 caption := None |}
              {| file_kind := Document; file_name := Some "report.pdf";
                 file_size := Some 1000; file_id := "file-1" |}
              world_upload_500
              (snd (ConversationState.get_flow 42 world_upload_500))
              eq_refl eq_refl eq_refl ltac:(vm_compute; reflexivity)
              eq_refl ltac:(vm_compute; reflexivity))
    as (w2 & Hrun & Hgone).
  exists w2. split; [exact Hrun|]. apply Hgone. reflexivity.
Defined.

(** ** Configuration *)

Section ConfigFacts.

Lemma string_app_nil_r (s : string) : s ++ "" = s.
Proof.
  induction s as [|c s IH]; [reflexivity|].
  change (String c s ++ "") with (String c (s ++ "")). by rewrite IH.
Qed.

Lemma rev_app_rev_app (s t r : string) :
  String.rev_app (String.rev_app s t) r = String.rev_app t (s ++ r).
Proof.
  revert t r. induction s as [|c s IH]; intros t r; [reflexivity|].
  cbn [String.rev_app]. rewrite IH. reflexivity.
Qed.

Lemma string_rev_involutive (s : string) : String.rev (String.rev s) = s.
Proof. unfold String.rev. rewrite rev_app_rev_app. apply string_app_nil_r. Qed.

Lemma has_char_rev_app c (s t : string) :
  has_char c (String.rev_app s t) = has_char c s || has_char c t.
Proof.
  revert t. induction s as [|c' s IH]; intros t; [reflexivity|].
  cbn [String.rev_app has_char]. rewrite IH. cbn [has_char].
  destruct (Ascii.eqb c c'), (has_char c s), (has_char c t); reflexivity.
Qed.

Lemma lstrip_id (s : string) :
  (∀ c, is_space c = true → has_char c s = false) → lstrip s = s.
Proof.
  destruct s as [|c s]; [reflexivity|]. intros H. cbn [lstrip].
  destruct (is_space c) eqn:Hc; [|reflexivity].
  specialize (H c Hc). cbn [has_char] in H. by rewrite Ascii.eqb_refl in H.
Qed.

Lemma strip_id (s : string) :
  (∀ c, is_space c = true → has_char c s = false) → strip s = s.
Proof.
  intros H. unfold strip. rewrite (lstrip_id s H).
  rewrite lstrip_id; [apply string_rev_involutive|].
  intros c Hc. unfold String.rev. rewrite has_char_rev_app. cbn [has_char].
  by rewrite (H c Hc).
Qed.

Lemma digit_value_pretty_char (r : N) :
  (r < 10)%N → digit_value (pretty_N_char r) = Some (Z.of_N r).
Proof.
  intros Hr.
  assert (r = 0 ∨ r = 1 ∨ r = 2 ∨ r = 3 ∨ r = 4 ∨ r = 5 ∨ r = 6
          ∨ r = 7 ∨ r = 8 ∨ r = 9)%N as H by lia.
  repeat (destruct H as [->|H]; [reflexivity|]). by subst.
Qed.

Lemma has_char_pretty_N_go c (x : N) (s : string) :
  digit_value c = None → has_char c s = false →
  has_char c (pretty_N_go x s) = false.
Proof.
  intros Hc. revert s. induction (N.lt_wf_0 x) as [x _ IH]; intros s Hs.
  assert (x = 0 ∨ 0 < x)%N as [->|Hpos] by lia; [by rewrite pretty_N_go_0|].
  rewrite pretty_N_go_step by done. apply IH; [by apply N.div_lt|].
  cbn [has_char]. rewrite Hs, orb_false_r.
  destruct (Ascii.eqb_spec c (pretty_N_char (x `mod` 10))) as [->|_]; [|reflexivity].
  rewrite digit_value_pretty_char in Hc; [discriminate|].
  by apply N.mod_lt.
Qed.

Lemma int_digits_pretty_N_go (x : N) (s : string) :
  (0 < x)%N →
  int_digits 0 false (pretty_N_go x s) = int_digits (Z.of_N x) true s.
Proof.
  revert s. induction (N.lt_wf_0 x) as [x _ IH]; intros s Hpos.
  rewrite pretty_N_go_step by done.
  assert (Hr : (x `mod` 10 < 10)%N) by (by apply N.mod_lt).
  destruct (N.eq_0_gt_0_cases (x `div` 10)) as [Hz|Hq].
  - rewrite Hz, pretty_N_go_0. cbn [int_digits].
    rewrite (digit_value_pretty_char _ Hr). f_equal.
    pose proof (N.div_mod x 10). lia.
  - rewrite IH; [|by apply N.div_lt|done]. cbn [int_digits].
    rewrite (digit_value_pretty_char _ Hr). f_equal.
    pose proof (N.div_mod x 10). lia.
Qed.

(** The text of an integer has no character but digits and a sign. *)
Lemma has_char_py_str c (u : Z) :
  digit_value c = None → c ≠ "-"%char → has_char c (py_str u) = false.
Proof.
  intros Hc Hm. unfold py_str, pretty, pretty_Z.
  destruct u as [|p|p].
  - cbn [has_char]. rewrite orb_false_r.
    destruct (Ascii.eqb_spec c "0") as [->|_]; [discriminate|reflexivity].
  - unfold pretty, pretty_positive, pretty, pretty_N.
    destruct (decide (N.pos p = 0%N)); [discriminate|].
    by apply has_char_pretty_N_go.
  - change ("-" +:+ ?s) with (String "-" s). cbn [has_char].
    destruct (Ascii.eqb_spec c "-") as [->|_]; [contradiction|]. cbn [orb].
    unfold pretty, pretty_positive, pretty, pretty_N.
    destruct (decide (N.pos p = 0%N)); [discriminate|].
    by apply has_char_pretty_N_go.
Qed.

Lemma is_space_not_digit c : is_space c = true → digit_value c = None ∧ c ≠ "-"%char.
Proof.
  destruct c as [[] [] [] [] [] [] [] []]; vm_compute; try discriminate;
    intros _; split; congruence.
Qed.

Lemma strip_py_str (u : Z) : strip (py_str u) = py_str u.
Proof.
  apply strip_id. intros c [Hd Hm]%is_space_not_digit. by apply has_char_py_str.
Qed.

(** [int(str(u))] is [u], for an integer within the digit limit. *)
Lemma py_int_py_str (u : Z) :
  (count_digits (py_str u) <= max_str_digits)%nat →
  py_int (py_str u) = Some u.
Proof.
  intros Hlim. unfold py_int. rewrite strip_py_str. cbv zeta.
  destruct (Nat.ltb_spec max_str_digits (count_digits (py_str u))) as [?|_]; [lia|].
  unfold py_str, pretty, pretty_Z. destruct u as [|p|p].
  - reflexivity.
  - unfold pretty, pretty_positive, pretty, pretty_N.
    destruct (decide (N.pos p = 0%N)); [discriminate|].
    pose proof (has_char_pretty_N_go "-" (N.pos p) "" eq_refl eq_refl) as Hm.
    pose proof (has_char_pretty_N_go "+" (N.pos p) "" eq_refl eq_refl) as Hp.
    pose proof (int_digits_pretty_N_go (N.pos p) "" eq_refl) as Hv.
    destruct (pretty_N_go (N.pos p) "") as [|c r]; [discriminate|].
    cbn [has_char] in Hm, Hp.
    apply orb_false_elim in Hm as [Hm _]. apply orb_false_elim in Hp as [Hp _].
    rewrite Ascii.eqb_sym in Hm. rewrite Ascii.eqb_sym in Hp.
    cbv beta iota. rewrite Hm, Hp, Hv. reflexivity.
  - change ("-" +:+ ?s) with (String "-" s). cbv beta iota.
    rewrite Ascii.eqb_refl.
    unfold pretty, pretty_positive, pretty, pretty_N.
    destruct (decide (N.pos p = 0%N)); [discriminate|].
    rewrite (int_digits_pretty_N_go (N.pos p) "" eq_refl). reflexivity.
Qed.

Lemma str_split_no_sep sep (p : string) :
  has_char sep p = false → str_split sep p = [p].
Proof.
  induction p as [|c p IH]; [reflexivity|]. cbn [has_char str_split].
  intros [Hc Hp]%orb_false_elim. rewrite Ascii.eqb_sym in Hc. rewrite Hc.
  by rewrite (IH Hp).
Qed.

Lemma str_split_app sep (p rest : string) :
  has_char sep p = false →
  str_split sep (p ++ String sep rest) = p :: str_split sep rest.
Proof.
  induction p as [|c p IH].
  - intros _. change ("" ++ String sep rest) with (String sep rest).
    cbn [str_split]. by rewrite Ascii.eqb_refl.
  - cbn [has_char]. intros [Hc Hp]%orb_false_elim.
    change (String c p ++ String sep rest) with (String c (p ++ String sep rest)).
    cbn [str_split]. rewrite Ascii.eqb_sym in Hc. rewrite Hc.
    by rewrite (IH Hp).
Qed.

Lemma str_split_join sep (pieces : list string) :
  pieces ≠ [] →
  Forall (λ p, has_char sep p = false) pieces →
  str_split sep (str_join sep pieces) = pieces.
Proof.
  induction pieces as [|p rest IH]; [done|]. intros _ Hall.
  inversion_clear Hall as [|? ? Hp Hrest].
  destruct rest as [|q rest].
  - cbn [str_join]. by apply str_split_no_sep.
  - change (str_join sep (p :: q :: rest))
      with (p ++ String sep (str_join sep (q :: rest))).
    rewrite (str_split_app _ _ _ Hp). f_equal. by apply IH.
Qed.

Lemma py_str_nonempty u : py_str u ≠ "".
Proof.
  intros H. pose proof (py_int_py_str u) as Hr. rewrite H in Hr.
  unfold py_int in Hr. cbn in Hr.
  assert (Hx : None = Some u) by (apply Hr; cbn; unfold max_str_digits; lia).
  discriminate.
Qed.

Lemma str_join_nonempty sep (pieces : list string) :
  pieces ≠ [] → Forall (λ p, p ≠ "") pieces → str_join sep pieces ≠ "".
Proof.
  destruct pieces as [|p rest]; [done|]. intros _ Hall.
  inversion_clear Hall as [|? ? Hp _].
  destruct rest as [|q rest]; [exact Hp|].
  change (str_join sep (p :: q :: rest))
    with (p ++ String sep (str_join sep (q :: rest))).
  destruct p; [contradiction|discriminate].
Qed.

(** X22. Reading the configured id list is the inverse of writing it:
    the ids joined by commas are read back as the same list, in the same
    order, duplicates included. *)
Theorem user_ids_round_trip (ids : list Z) :
  Forall (λ u, (count_digits (py_str u) <= max_str_digits)%nat) ids →
  get_user_ids (str_join "," (py_str <$> ids)) = Some ids.
Proof.
  intros Hlim. unfold get_user_ids.
  destruct ids as [|u ids]; [reflexivity|].
  assert (Hne : py_str <$> u :: ids ≠ []) by discriminate.
  destruct (String.eqb_spec (str_join "," (py_str <$> u :: ids)) "") as [He|_].
  { exfalso. revert He. apply str_join_nonempty; [exact Hne|].
    apply Forall_fmap, Forall_true. intros x. apply py_str_nonempty. }
  rewrite str_split_join; [|exact Hne|].
  2:{ apply Forall_fmap, Forall_true. intros x. by apply has_char_py_str. }
  generalize (u :: ids) Hlim. clear. intros l Hlim.
  induction Hlim as [|x l Hx Hl IH]; [reflexivity|].
  rewrite fmap_cons, filter_cons_True by (rewrite strip_py_str; apply py_str_nonempty).
  cbn [mapM]. rewrite strip_py_str, (py_int_py_str x Hx). cbn.
  rewrite IH. reflexivity.
Qed.

(** X23. An allow-list setting that holds nothing but commas and blanks
    counts as empty: no id is read from it, and the manager built from it
    allows every user. *)
Theorem blank_allow_list_allows_everyone field admins secret u :
  Forall (λ piece, strip piece = "") (str_split "," field) →
  get_user_ids field = Some [] ∧
  Auth.is_user_allowed
    (Auth.init {| Auth.allowed_user_ids := default [] (get_user_ids field);
                  Auth.admin_user_ids := admins;
                  Auth.backend_jwt_secret := secret |}) u = true.
Proof.
  intros Hblank.
  assert (Hids : get_user_ids field = Some []).
  { unfold get_user_ids. destruct (String.eqb field ""); [reflexivity|].
    induction Hblank as [|piece pieces Hp _ IH]; [reflexivity|].
    by rewrite filter_cons_False by (intros Hn; exact (Hn Hp)). }
  split; [exact Hids|]. rewrite Hids. simpl.
  unfold Auth.is_user_allowed.
  rewrite (proj2 (init_allow_all
                    {| Auth.allowed_user_ids := [];
                       Auth.admin_user_ids := admins;
                       Auth.backend_jwt_secret := secret |}) eq_refl).
  reflexivity.
Qed.

End ConfigFacts.

Lemma user_ids_round_trip_witness :
  get_user_ids "1,42,-7,42" = Some [1; 42; -7; 42].
Proof.
  apply (user_ids_round_trip [1; 42; -7; 42]).
  repeat constructor; vm_compute; lia.
Defined.

Lemma blank_allow_list_allows_everyone_witness :
  get_user_ids " , ," = Some [] ∧
  Auth.is_user_allowed
    (Auth.init {| Auth.allowed_user_ids := default [] (get_user_ids " , ,");
                  Auth.admin_user_ids := [1];
                  Auth.backend_jwt_secret := "secret" |}) 999 = true.
Proof.
  apply (blank_allow_list_allows_everyone " , ," [1] "secret" 999).
  vm_compute. repeat constructor.
Defined.

(** ** The admin endpoints *)

Section AdminFacts.

Variable hs256 : string -> Dict -> Dict -> string.

Implicit Types (a : Auth.AuthManager) (u : Z) (w : World).

(** X24. The admin endpoints accept the tokens that the bot issues for
    its backend requests.  A token issued for [u], presented no later
    than its expiry, is authorized exactly when [u] is an admin, and
    answered with 403 otherwise; presented after its expiry it is
    answered with 401. *)
Theorem issued_token_at_admin_endpoint a u minutes w w' tok :
  fst (create_backend_token hs256 a u minutes w) = Ret tok →
  (count_digits (py_str u) <= max_str_digits)%nat →
  (now w' <= now w + minutes * 60 →
     fst (Admin.verify_admin_token hs256 a tok w') =
       Ret (if Auth.is_user_admin a u then Admin.Authorized
            else Admin.HTTPException 403 "Admin privileges required")) ∧
  (now w + minutes * 60 < now w' →
     fst (Admin.verify_admin_token hs256 a tok w') =
       Ret (Admin.HTTPException 401 "Invalid token")).
Proof.
  rewrite create_backend_token_eq. simpl. intros [= <-] Hlim.
  unfold Admin.verify_admin_token, verify_backend_token, bind, get_world,
    jwt_decode, jwt_encode; simpl.
  assert (Halg : is_JStr "HS256" (dict_get hs256_header "alg") = true)
    by reflexivity.
  rewrite Halg; simpl. rewrite String.eqb_refl; simpl.
  rewrite lookup_insert_ne by done. rewrite lookup_insert_eq.
  split.
  - intros Hle.
    destruct (Z.ltb_spec (now w + minutes * 60) (now w')) as [Hlt|_]; [lia|].
    simpl. unfold dict_truthy.
    rewrite bool_decide_eq_false_2 by apply insert_non_empty. simpl.
    unfold dict_get_default. rewrite lookup_insert_eq. simpl.
    rewrite (py_int_py_str u Hlim). simpl.
    by destruct (Auth.is_user_admin a u).
  - intros Hlt.
    destruct (Z.ltb_spec (now w + minutes * 60) (now w')) as [_|Hge]; [|lia].
    reflexivity.
Qed.

End AdminFacts.

Lemma issued_token_at_admin_endpoint_witness :
  fst (Admin.verify_admin_token mac_sample (Auth.init settings_closed) token_admin
         (advance 3600 world_fresh)) = Ret Admin.Authorized ∧
  fst (Admin.verify_admin_token mac_sample (Auth.init settings_closed) token_admin
         (advance 3601 world_fresh)) = Ret (Admin.HTTPException 401 "Invalid token") ∧
  fst (Admin.verify_admin_token mac_sample (Auth.init settings_closed) token_sample
         world_fresh) = Ret (Admin.HTTPException 403 "Admin privileges required").
Proof.
  split; [|split].
  - apply (proj1 (issued_token_at_admin_endpoint mac_sample (Auth.init settings_closed)
                    1 60 world_fresh (advance 3600 world_fresh) token_admin eq_refl
                    ltac:(vm_compute; lia))).
    simpl. lia.
  - apply (proj2 (issued_token_at_admin_endpoint mac_sample (Auth.init settings_closed)
                    1 60 world_fresh (advance 3601 world_fresh) token_admin eq_refl
                    ltac:(vm_compute; lia))).
    simpl. lia.
  - apply (proj1 (issued_token_at_admin_endpoint mac_sample (Auth.init settings_closed)
                    42 60 world_fresh world_fresh token_sample eq_refl
                    ltac:(vm_compute; lia))).
    simpl. lia.
Defined.

(** ** Generated file names *)

Section GeneratedNameFacts.

Implicit Types (s t r : string) (c : ascii) (f : FileObj).

Lemma string_app_assoc s t r : (s ++ t) ++ r = s ++ (t ++ r).
Proof.
  induction s as [|c s IH]; [reflexivity|].
  change (String c s ++ t) with (String c (s ++ t)).
  change (String c (s ++ t) ++ r) with (String c ((s ++ t) ++ r)).
  by rewrite IH.
Qed.

Lemma has_char_zeros c k : c ≠ "0"%char → has_char c (zeros k) = false.
Proof.
  intros Hc. induction k as [|k IH]; [reflexivity|].
  change (zeros (S k)) with (String "0" (zeros k)). cbn [has_char].
  rewrite IH, orb_false_r. by apply Ascii.eqb_neq.
Qed.

Lemma has_char_pad c width n :
  digit_value c = None → c ≠ "-"%char → has_char c (pad width n) = false.
Proof.
  intros Hd Hm. unfold pad. rewrite has_char_app.
  rewrite has_char_zeros by (intros ->; discriminate).
  by apply has_char_py_str.
Qed.

(** A timestamp is made of digits, signs and one underscore. *)
Lemma has_char_strftime_compact c (clock : Z) :
  digit_value c = None → c ≠ "-"%char → c ≠ "_"%char →
  has_char c (Files.strftime_compact clock) = false.
Proof.
  intros Hd Hm Hu. unfold Files.strftime_compact.
  destruct (civil_from_days (clock / 86400)) as [[y m] d].
  rewrite !has_char_app, !has_char_pad by done.
  cbn [has_char orb]. rewrite !orb_false_r. by apply Ascii.eqb_neq.
Qed.

(** A name put together from a prefix, a timestamp and a supported
    extension passes the extension check. *)
Lemma stamped_name_supported prefix c0 (clock : Z) e :
  c0 ≠ "."%char → has_char "/" (String c0 prefix) = false →
  has_char "/" e = false → has_char "." e = false →
  lower (String "." e) = String "." e →
  String "." e ∈ Files.supported_extensions →
  Files.is_supported_file_type
    (Some (String c0 prefix ++ Files.strftime_compact clock ++ String "." e)) = true.
Proof.
  intros Hc0 Hp Hsep Hdot Hlow Hin.
  rewrite <- string_app_assoc.
  set (stem := String c0 prefix ++ Files.strftime_compact clock).
  assert (Hne : String.eqb (stem ++ String "." e) "" = false)
    by (apply String.eqb_neq; discriminate).
  assert (Hnosep : has_char "/" (stem ++ String "." e) = false).
  { unfold stem. rewrite !has_char_app, Hp.
    rewrite has_char_strftime_compact by done.
    cbn [has_char orb]. exact Hsep. }
  assert (Hstem : all_dots stem = false).
  { unfold stem. change (String c0 prefix ++ ?x) with (String c0 (prefix ++ x)).
    cbn [all_dots]. by rewrite (proj2 (Ascii.eqb_neq _ _) Hc0). }
  unfold Files.is_supported_file_type, Files.get_file_extension,
    Files.splitext_ext. rewrite Hne.
  rewrite (after_last_sep_no_sep _ Hnosep), (ext_go_last_dot _ _ _ Hdot).
  rewrite Hstem, andb_false_r, Hlow. by apply bool_decide_eq_true.
Qed.

(** X25. The names that the handler makes up itself always pass the
    extension check: a photo, a voice note and an audio file without a
    name are never turned away for their extension, whatever the clock
    says.  Only documents and named audio files can be. *)
Theorem generated_names_always_supported now f :
  file_kind f = Photo ∨ file_kind f = Voice ∨
  (file_kind f = Audio ∧ (file_name f = None ∨ file_name f = Some "")) →
  Files.is_supported_file_type (Files.upload_filename now f) = true.
Proof.
  unfold Files.upload_filename.
  intros [->|[->|[-> [->| ->]]]]; cbn [String.eqb];
    apply stamped_name_supported; try done;
    apply (bool_decide_unpack _); vm_compute; exact I.
Qed.

End GeneratedNameFacts.

Lemma generated_names_always_supported_witness :
  Files.is_supported_file_type
    (Files.upload_filename 1700000000
       {| file_kind := Voice; file_name := None; file_size := Some 2000;
          file_id := "file-4" |}) = true.
Proof.
  apply (generated_names_always_supported 1700000000
           {| file_kind := Voice; file_name := None; file_size := Some 2000;
              file_id := "file-4" |}).
  right. left. reflexivity.
Defined.

(** ** A Redis outage after the client has connected *)

Section AvailabilityFacts.

Implicit Types (w : World) (update : Update) (context : Context) (u : Z).



End AvailabilityFacts.

